(** * Loan entries: lifecycle transitions, report aggregation and import

    A shallow embedding of the loan-tracking front end: the [entries] table
    (as declared by the SQL migrations), the conditional writes issued by
    the active-entries, settled-entries, entry-form and report components,
    the report's single-pass aggregation and the import validator.

    Conventions.
    - In the handlers a JavaScript [number] holding an amount or a count
      is an exact integer ([Z]): an amount is stored as entered or after
      one subtraction.  The sums of the report, where the rounding of
      binary64 numbers shows, are modelled a second time over the numbers
      of the program ([JSReport]), binary64 among them.
    - [null] and a missing key of a fetched row are both [None]; a date is
      the text the browser and the table exchange (['yyyy-MM-dd']).
    - An object used as a dictionary ([loanTypes]) is a [gmap]: lookup is
      the object's own-property lookup, which is what JavaScript computes
      for every key that is not a member name of [Object.prototype], so in
      particular for the three types the [type] column admits;
      [JSReport] also covers the inherited names.
    - The column [created_at] is never read or written by the client and is
      left out of the row. *)

From Stdlib Require Import ZArith List Bool Ascii String.
From Stdlib Require PrimFloat Uint63.
From stdpp Require Import base option list gmap strings fin_maps.

Set Warnings "-register-all".
Set Warnings "-inexact-float".

Open Scope string_scope.
Open Scope list_scope.
Open Scope Z_scope.

(** ** Rows of the [entries] table *)

Inductive Status : Type := active | settled.

#[global] Instance Status_eq_dec : EqDecision Status.
Proof. solve_decision. Defined.

Definition Status_eqb (a b : Status) : bool :=
  match a, b with
  | active, active | settled, settled => true
  | _, _ => false
  end.

(** The closed set of loan types, [type EntryType = 'NR' | 'R' | 'Vyapari'],
    and the text stored in the [type] column. *)
Inductive EntryType : Type := NR | R | Vyapari.

Definition type_name (t : EntryType) : string :=
  match t with
  | NR => "NR"
  | R => "R"
  | Vyapari => "Vyapari"
  end.

(** One element of [renewal_history]. *)
Record Renewal : Type := mkRenewal {
  r_date : string;
  r_amount : Z;
  r_settled_amount : Z;
  r_renewal_date : string;
  r_new_amount : Z
}.

(** [interface Entry] of the active-entries component: every column of the
    table the client uses. *)
Record Entry : Type := mkEntry {
  id : Z;
  type : string;
  date : string;
  customer_name : string;
  customer_address : string;
  customer_mobile : option string;
  items : string;
  given_amount : Z;
  status : Status;
  settled_amount : option Z;
  settled_date : option string;
  settlement_notes : option string;
  renewal_history : option (list Renewal);
  renewal_date : option string;
  renewal_amount : option Z
}.

(** ** JavaScript operators used by the handlers *)

(** [x || 0] on an optional number: [undefined], [null] and [0] give [0]. *)
Definition or_zero (x : option Z) : Z :=
  match x with
  | Some v => v
  | None => 0
  end.

(** [s || null] on a string: the empty string is falsy. *)
Definition or_null (s : string) : option string :=
  if String.eqb s "" then None else Some s.

(** [h || []] on an optional array: an array, even empty, is truthy. *)
Definition or_empty {A} (h : option (list A)) : list A :=
  match h with
  | Some l => l
  | None => []
  end.

(** [s.includes(t)]: [t] occurs in [s] as a contiguous run. *)
Fixpoint String_includes (s t : string) : bool :=
  String.prefix t s
  || match s with
     | EmptyString => false
     | String _ s' => String_includes s' t
     end.

(** A value produced by [JSON.parse].  The fields of an object are its own
    properties, one binding per key. *)
Inductive json : Type :=
| JNull
| JBool (b : bool)
| JNumber (n : Z)
| JString (s : string)
| JArray (elements : list json)
| JObject (fields : list (string * json)).

(** ** The remote table

    The client reaches the table through filtered UPDATE and INSERT
    requests.  A request is one SQL statement: it is applied to every row
    its filters select, and it is refused as a whole, leaving the table as
    it was, when a row it writes violates a CHECK constraint of the
    migrations.  A request may also be refused for a reason that does not
    depend on the rows (network, session, row-level security, a value the
    column type rejects); that refusal is the [transport] argument. *)

Module Store.

Record PostgrestError : Type := mkError {
  message : string;
  instanceof_Error : bool
}.

Definition check_violation : PostgrestError :=
  mkError "new row for relation entries violates check constraint" false.

(** [.eq('id', v)] and [.eq('status', v)]. *)
Inductive Filter : Type :=
| eq_id (v : Z)
| eq_status (v : Status).

Definition holds (f : Filter) (r : Entry) : bool :=
  match f with
  | eq_id v => id r =? v
  | eq_status v => Status_eqb (status r) v
  end.

Definition selects (fs : list Filter) (r : Entry) : bool :=
  forallb (fun f => holds f r) fs.

(** One [column: value] pair of an update payload. *)
Inductive Assign : Type :=
| set_date (v : string)
| set_given_amount (v : Z)
| set_status (v : Status)
| set_settled_amount (v : option Z)
| set_settled_date (v : option string)
| set_settlement_notes (v : option string)
| set_renewal_history (v : option (list Renewal))
| set_renewal_date (v : option string)
| set_renewal_amount (v : option Z).

Definition assign (a : Assign) (r : Entry) : Entry :=
  match r with
  | mkEntry i ty d cn ca cm it ga st sa sd sn rh rd ra =>
    match a with
    | set_date v => mkEntry i ty v cn ca cm it ga st sa sd sn rh rd ra
    | set_given_amount v => mkEntry i ty d cn ca cm it v st sa sd sn rh rd ra
    | set_status v => mkEntry i ty d cn ca cm it ga v sa sd sn rh rd ra
    | set_settled_amount v => mkEntry i ty d cn ca cm it ga st v sd sn rh rd ra
    | set_settled_date v => mkEntry i ty d cn ca cm it ga st sa v sn rh rd ra
    | set_settlement_notes v => mkEntry i ty d cn ca cm it ga st sa sd v rh rd ra
    | set_renewal_history v => mkEntry i ty d cn ca cm it ga st sa sd sn v rd ra
    | set_renewal_date v => mkEntry i ty d cn ca cm it ga st sa sd sn rh v ra
    | set_renewal_amount v => mkEntry i ty d cn ca cm it ga st sa sd sn rh rd v
    end
  end.

(** The payload object of [.update({...})], in the order it is written. *)
Definition apply_payload (p : list Assign) (r : Entry) : Entry :=
  fold_left (fun r a => assign a r) p r.

(** *** CHECK constraints of the migrations *)

(** [CHECK (type IN ('NR', 'R', 'Vyapari'))] *)
Definition type_check (r : Entry) : bool :=
  existsb (String.eqb (type r)) ["NR"; "R"; "Vyapari"].

(** [CHECK (given_amount >= 0)] *)
Definition given_amount_check (r : Entry) : bool := 0 <=? given_amount r.

(** [settlement_details_required] *)
Definition settlement_details_required (r : Entry) : bool :=
  (Status_eqb (status r) settled
     && bool_decide (is_Some (settled_amount r))
     && bool_decide (is_Some (settled_date r)))
  || (Status_eqb (status r) active
        && bool_decide (settled_amount r = None)
        && bool_decide (settled_date r = None)).

(** [renewal_details_check] *)
Definition renewal_details_check (r : Entry) : bool :=
  (bool_decide (is_Some (renewal_date r))
     && bool_decide (is_Some (renewal_amount r)))
  || (bool_decide (renewal_date r = None)
        && bool_decide (renewal_amount r = None)).

Definition row_check (r : Entry) : bool :=
  type_check r && given_amount_check r
    && settlement_details_required r && renewal_details_check r.

(** Every stored row satisfies the constraints. *)
Definition table_ok (tbl : list Entry) : Prop :=
  Forall (fun r => row_check r = true) tbl.

(** *** UPDATE ... WHERE filters *)

Definition write (p : list Assign) (fs : list Filter) (r : Entry) : Entry :=
  if selects fs r then apply_payload p r else r.

Definition update (transport : option PostgrestError)
    (p : list Assign) (fs : list Filter) (tbl : list Entry)
  : option PostgrestError * list Entry :=
  match transport with
  | Some e => (Some e, tbl)
  | None =>
      if forallb (fun r => row_check (write p fs r))
           (List.filter (selects fs) tbl)
      then (None, map (write p fs) tbl)
      else (Some check_violation, tbl)
  end.

(** *** INSERT *)

(** A row to insert: the columns the statement names.  A column left out
    ([None] here for the ones the client may leave out) takes its
    default. *)
Record InsertRow : Type := mkInsertRow {
  i_type : string;
  i_date : string;
  i_customer_name : string;
  i_customer_address : string;
  i_customer_mobile : option string;
  i_items : string;
  i_given_amount : Z;
  i_status : option Status;
  i_settled_amount : option Z;
  i_settled_date : option string;
  i_settlement_notes : option string;
  i_renewal_history : option (list Renewal);
  i_renewal_date : option string;
  i_renewal_amount : option Z
}.

(** [id] is GENERATED ALWAYS AS IDENTITY; [status] is
    [NOT NULL DEFAULT 'active']; the settlement and renewal columns are
    nullable without default. *)
Definition stored (new_id : Z) (p : InsertRow) : Entry :=
  {| id := new_id;
     type := i_type p;
     date := i_date p;
     customer_name := i_customer_name p;
     customer_address := i_customer_address p;
     customer_mobile := i_customer_mobile p;
     items := i_items p;
     given_amount := i_given_amount p;
     status := default active (i_status p);
     settled_amount := i_settled_amount p;
     settled_date := i_settled_date p;
     settlement_notes := i_settlement_notes p;
     renewal_history := i_renewal_history p;
     renewal_date := i_renewal_date p;
     renewal_amount := i_renewal_amount p |}.

(** The rows of one INSERT get consecutive values of the identity
    sequence, starting at [seq]. *)
Fixpoint number (seq : Z) (ps : list InsertRow) : list Entry :=
  match ps with
  | [] => []
  | p :: ps' => stored seq p :: number (seq + 1) ps'
  end.

Definition insert (transport : option PostgrestError) (seq : Z)
    (ps : list InsertRow) (tbl : list Entry)
  : option PostgrestError * list Entry :=
  match transport with
  | Some e => (Some e, tbl)
  | None =>
      if forallb row_check (number seq ps)
      then (None, tbl ++ number seq ps)
      else (Some check_violation, tbl)
  end.

(** A bulk insert of JSON objects.  How the REST layer reads an object
    as a row (column names, value types) is decided outside this
    repository: it is the parameter [decode], and an object it does not
    read makes the whole request fail. *)
Definition bad_request : PostgrestError :=
  mkError "Could not read the request body as rows of entries" false.

Definition insert_items (decode : json -> option InsertRow)
    (transport : option PostgrestError) (seq : Z)
    (items : list json) (tbl : list Entry)
  : option PostgrestError * list Entry :=
  match transport with
  | Some e => (Some e, tbl)
  | None =>
      match mapM decode items with
      | Some ps => insert None seq ps tbl
      | None => (Some bad_request, tbl)
      end
  end.

End Store.

(** DELETE ... WHERE filters, under row-level security.  Every migration
    enables row-level security on the table and creates policies FOR
    SELECT, FOR INSERT and FOR UPDATE only; none creates a policy FOR
    DELETE or FOR ALL.  A command without policy sees no row, so it
    affects none and raises no error. *)
Module StoreDelete.

Inductive Command : Type := cmd_select | cmd_insert | cmd_update | cmd_delete.

(** The commands for which the migrations leave a policy in force. *)
Definition has_policy (c : Command) : bool :=
  match c with
  | cmd_select | cmd_insert | cmd_update => true
  | cmd_delete => false
  end.

Definition delete (transport : option Store.PostgrestError)
    (fs : list Store.Filter) (tbl : list Entry)
  : option Store.PostgrestError * list Entry :=
  match transport with
  | Some e => (Some e, tbl)
  | None =>
      (None,
       List.filter
         (fun r => negb (has_policy cmd_delete && Store.selects fs r)) tbl)
  end.

End StoreDelete.

(** ** What a handler leaves behind besides state: notifications, the
    console line of a [catch] block, and a list refresh it starts without
    awaiting it. *)

Inductive Effect : Type :=
| toast_success (msg : string)
| toast_error (msg : string)
| console_error (label : string)
| fetchEntries
| reset_file_input.

(** ** Active entries ([TakenEntries]) *)

Module SettlementFormData.
Record t : Type := mk {
  total_amount : Z;
  date : string;
  notes : string
}.
End SettlementFormData.

Module RenewalFormData.
Record t : Type := mk {
  settlement_amount : Z;
  renewal_date : string;
  new_loan_amount : Z
}.
End RenewalFormData.

Module TakenEntries.

Record State : Type := mkState {
  entries : list Entry;
  searchTerm : string;
  selectedDate : string;
  loading : bool;
  selectedEntry : option Entry;
  showSettlementModal : bool;
  showRenewalModal : bool;
  settlementData : SettlementFormData.t;
  renewalData : RenewalFormData.t
}.

(** [today] is [format(new Date(), 'yyyy-MM-dd')]. *)
Definition handleSettleClick (today : string) (entry : Entry) (st : State) : State :=
  {| entries := entries st;
     searchTerm := searchTerm st;
     selectedDate := selectedDate st;
     loading := loading st;
     selectedEntry := Some entry;
     showSettlementModal := true;
     showRenewalModal := showRenewalModal st;
     settlementData := SettlementFormData.mk (given_amount entry) today "";
     renewalData := renewalData st |}.

Definition handleRenewalClick (today : string) (entry : Entry) (st : State) : State :=
  {| entries := entries st;
     searchTerm := searchTerm st;
     selectedDate := selectedDate st;
     loading := loading st;
     selectedEntry := Some entry;
     showSettlementModal := showSettlementModal st;
     showRenewalModal := true;
     settlementData := settlementData st;
     renewalData :=
       RenewalFormData.mk (given_amount entry) today (given_amount entry) |}.

(** The payload and the filters of the settle request. *)
Definition settle_payload (sel : Entry) (d : SettlementFormData.t) : list Store.Assign :=
  [ Store.set_status settled;
    Store.set_settled_amount
      (Some (SettlementFormData.total_amount d - given_amount sel));
    Store.set_settled_date (Some (SettlementFormData.date d));
    Store.set_settlement_notes (or_null (SettlementFormData.notes d)) ].

Definition only_active (sel : Entry) : list Store.Filter :=
  [ Store.eq_id (id sel); Store.eq_status active ].

Definition handleSettleSubmit (transport : option Store.PostgrestError)
    (st : State) (tbl : list Entry) : State * list Entry * list Effect :=
  match selectedEntry st with
  | None => (st, tbl, [])
  | Some sel =>
      let '(error, tbl') :=
        Store.update transport (settle_payload sel (settlementData st))
          (only_active sel) tbl in
      match error with
      | Some _ =>
          (st, tbl',
           [console_error "Error settling loan:";
            toast_error "Failed to settle loan"])
      | None =>
          ({| entries :=
                List.filter (fun entry => negb (id entry =? id sel)) (entries st);
              searchTerm := searchTerm st;
              selectedDate := selectedDate st;
              loading := loading st;
              selectedEntry := selectedEntry st;
              showSettlementModal := false;
              showRenewalModal := showRenewalModal st;
              settlementData := settlementData st;
              renewalData := renewalData st |},
           tbl',
           [toast_success "Loan settled successfully"])
      end
  end.

Definition historyEntry (sel : Entry) (d : RenewalFormData.t) : Renewal :=
  {| r_date := date sel;
     r_amount := given_amount sel;
     r_settled_amount := RenewalFormData.settlement_amount d;
     r_renewal_date := RenewalFormData.renewal_date d;
     r_new_amount := RenewalFormData.new_loan_amount d |}.

(** The handler also computes [extraAmount], the settlement amount minus
    the principal, and does not use it. *)
Definition renewal_payload (sel : Entry) (d : RenewalFormData.t) : list Store.Assign :=
  let existingHistory := or_empty (renewal_history sel) in
  [ Store.set_renewal_history (Some (existingHistory ++ [historyEntry sel d]));
    Store.set_date (RenewalFormData.renewal_date d);
    Store.set_renewal_date (Some (RenewalFormData.renewal_date d));
    Store.set_renewal_amount (Some (RenewalFormData.settlement_amount d));
    Store.set_given_amount (RenewalFormData.new_loan_amount d) ].

Definition handleRenewalSubmit (transport : option Store.PostgrestError)
    (st : State) (tbl : list Entry) : State * list Entry * list Effect :=
  match selectedEntry st with
  | None => (st, tbl, [])
  | Some sel =>
      let '(error, tbl') :=
        Store.update transport (renewal_payload sel (renewalData st))
          (only_active sel) tbl in
      match error with
      | Some _ =>
          (st, tbl',
           [console_error "Error renewing loan:";
            toast_error "Failed to renew loan"])
      | None =>
          ({| entries := entries st;
              searchTerm := searchTerm st;
              selectedDate := selectedDate st;
              loading := loading st;
              selectedEntry := selectedEntry st;
              showSettlementModal := showSettlementModal st;
              showRenewalModal := false;
              settlementData := settlementData st;
              renewalData := renewalData st |},
           tbl',
           [toast_success "Loan renewed successfully"; fetchEntries])
      end
  end.

(** [confirmed] is the answer to the [confirm(...)] dialog. *)
Definition handleDelete (confirmed : bool)
    (transport : option Store.PostgrestError)
    (id0 : Z) (st : State) (tbl : list Entry)
  : State * list Entry * list Effect :=
  if negb confirmed then (st, tbl, [])
  else
    let '(error, tbl') :=
      StoreDelete.delete transport
        [Store.eq_id id0; Store.eq_status active] tbl in
    match error with
    | Some _ =>
        (st, tbl',
         [console_error "Error deleting entry:";
          toast_error "Failed to delete entry"])
    | None =>
        ({| entries :=
              List.filter (fun entry => negb (id entry =? id0)) (entries st);
            searchTerm := searchTerm st;
            selectedDate := selectedDate st;
            loading := loading st;
            selectedEntry := selectedEntry st;
            showSettlementModal := showSettlementModal st;
            showRenewalModal := showRenewalModal st;
            settlementData := settlementData st;
            renewalData := renewalData st |},
         tbl',
         [toast_success "Entry deleted successfully"])
    end.

(** The extra amount the dialogs display. *)
Definition calculateExtraAmount (st : State) (totalAmount : Z) : Z :=
  match selectedEntry st with
  | None => 0
  | Some sel => totalAmount - given_amount sel
  end.

Section Search.

(** [s.toLowerCase()] and [n.toString()] are the runtime's: the case
    mapping of Unicode and the decimal rendering of a number. *)
Variable toLowerCase : string -> string.
Variable toString : Z -> string.

Definition matches (term : string) (entry : Entry) : bool :=
  String_includes (toLowerCase (customer_name entry)) (toLowerCase term)
  || match customer_mobile entry with
     | Some mobile => String_includes (toLowerCase mobile) (toLowerCase term)
     | None => false
     end
  || String_includes (toLowerCase (type entry)) (toLowerCase term)
  || String_includes (toString (given_amount entry)) term.

Definition filteredEntries (st : State) : list Entry :=
  List.filter (matches (searchTerm st)) (entries st).

End Search.

End TakenEntries.

(** The list refresh of the active view.  The table returns the selected
    rows ordered by [date], newest first; the order among rows of one date
    is the table's choice, so the ordering is a parameter. *)
Module TakenEntriesFetch.

Section Fetch.

Variable order_by_date_desc : list Entry -> list Entry.

Definition wanted (selectedDate : string) (r : Entry) : bool :=
  Status_eqb (status r) active
  && (if String.eqb selectedDate "" then true
      else String.eqb (date r) selectedDate).

Definition fetchEntries (transport : option Store.PostgrestError)
    (st : TakenEntries.State) (tbl : list Entry)
  : TakenEntries.State * list Effect :=
  match transport with
  | Some _ =>
      ({| TakenEntries.entries := TakenEntries.entries st;
          TakenEntries.searchTerm := TakenEntries.searchTerm st;
          TakenEntries.selectedDate := TakenEntries.selectedDate st;
          TakenEntries.loading := false;
          TakenEntries.selectedEntry := TakenEntries.selectedEntry st;
          TakenEntries.showSettlementModal := TakenEntries.showSettlementModal st;
          TakenEntries.showRenewalModal := TakenEntries.showRenewalModal st;
          TakenEntries.settlementData := TakenEntries.settlementData st;
          TakenEntries.renewalData := TakenEntries.renewalData st |},
       [console_error "Error fetching entries:";
        toast_error "Failed to fetch entries"])
  | None =>
      ({| TakenEntries.entries :=
            order_by_date_desc
              (List.filter (wanted (TakenEntries.selectedDate st)) tbl);
          TakenEntries.searchTerm := TakenEntries.searchTerm st;
          TakenEntries.selectedDate := TakenEntries.selectedDate st;
          TakenEntries.loading := false;
          TakenEntries.selectedEntry := TakenEntries.selectedEntry st;
          TakenEntries.showSettlementModal := TakenEntries.showSettlementModal st;
          TakenEntries.showRenewalModal := TakenEntries.showRenewalModal st;
          TakenEntries.settlementData := TakenEntries.settlementData st;
          TakenEntries.renewalData := TakenEntries.renewalData st |},
       [])
  end.

End Fetch.

End TakenEntriesFetch.

(** ** Settled entries ([SettledEntries]) *)

(** [interface SettledEntry]: the columns the settled view selects. *)
Module SettledEntry.
Record t : Type := mk {
  id : Z;
  type : string;
  date : string;
  customer_name : string;
  customer_mobile : option string;
  given_amount : Z;
  settled_amount : Z;
  settled_date : string;
  items : string;
  settlement_notes : option string
}.
End SettledEntry.

Module SettledEntries.

Record State : Type := mkState {
  entries : list SettledEntry.t;
  searchTerm : string;
  selectedDate : string;
  loading : bool
}.

Definition revoke_payload : list Store.Assign :=
  [ Store.set_status active;
    Store.set_settled_amount None;
    Store.set_settled_date None;
    Store.set_settlement_notes None ].

Definition only_settled (id0 : Z) : list Store.Filter :=
  [ Store.eq_id id0; Store.eq_status settled ].

(** [confirmed] is the answer to the [confirm(...)] dialog. *)
Definition handleRevoke (confirmed : bool)
    (transport : option Store.PostgrestError)
    (id0 : Z) (st : State) (tbl : list Entry)
  : State * list Entry * list Effect :=
  if negb confirmed then (st, tbl, [])
  else
    let '(error, tbl') :=
      Store.update transport revoke_payload (only_settled id0) tbl in
    match error with
    | Some _ =>
        (st, tbl',
         [console_error "Error revoking settlement:";
          toast_error "Failed to revoke settlement"])
    | None =>
        ({| entries :=
              List.filter (fun entry => negb (SettledEntry.id entry =? id0))
                (entries st);
            searchTerm := searchTerm st;
            selectedDate := selectedDate st;
            loading := loading st |},
         tbl',
         [toast_success "Settlement revoked successfully"])
    end.

Definition calculateTotalAmount (givenAmount settledAmount : Z) : Z :=
  givenAmount + settledAmount.

End SettledEntries.

(** ** Entry creation ([EntryForm]) *)

(** [s.split(sep)] for a one-character separator: the pieces between the
    separators, one piece for a string without separator. *)
Fixpoint split (sep : ascii) (s : string) : list string :=
  match s with
  | EmptyString => [EmptyString]
  | String c s' =>
      if Ascii.eqb c sep then EmptyString :: split sep s'
      else match split sep s' with
           | piece :: rest => String c piece :: rest
           | [] => [String c EmptyString]
           end
  end.

(** An array element inside a template literal: a missing one prints as
    [undefined]. *)
Definition interpolate (parts : list string) (i : nat) : string :=
  nth i parts "undefined".

Module CustomerSuggestion.
Record t : Type := mk {
  customer_name : string;
  customer_address : string;
  customer_mobile : option string
}.
End CustomerSuggestion.

Module EntryForm.

Record EntryFormData : Type := mkForm {
  type : EntryType;
  date : string;
  customerName : string;
  customerAddress : string;
  customerMobile : string;
  items : string;
  givenAmount : Z
}.

Record State : Type := mkState {
  formData : EntryFormData;
  suggestions : list CustomerSuggestion.t;
  showSuggestions : bool
}.

(** The form submits only when its inputs validate: name, address and
    items are [required], the amount is [required] with [min = 0]; the
    type comes from a select over the three types. *)
Definition form_valid (f : EntryFormData) : bool :=
  negb (String.eqb (customerName f) "")
    && negb (String.eqb (customerAddress f) "")
    && negb (String.eqb (items f) "")
    && (0 <=? givenAmount f).

(** Convert dd-MM-yyyy to yyyy-MM-dd. *)
Definition formattedDate (f : EntryFormData) : string :=
  let parts := split "-"%char (date f) in
  (interpolate parts 2 ++ "-" ++ interpolate parts 1 ++ "-"
     ++ interpolate parts 0)%string.

(** The object handed to [.insert([...])]: seven columns, nothing else. *)
Definition insert_payload (f : EntryFormData) : Store.InsertRow :=
  {| Store.i_type := type_name (type f);
     Store.i_date := formattedDate f;
     Store.i_customer_name := customerName f;
     Store.i_customer_address := customerAddress f;
     Store.i_customer_mobile := or_null (customerMobile f);
     Store.i_items := items f;
     Store.i_given_amount := givenAmount f;
     Store.i_status := None;
     Store.i_settled_amount := None;
     Store.i_settled_date := None;
     Store.i_settlement_notes := None;
     Store.i_renewal_history := None;
     Store.i_renewal_date := None;
     Store.i_renewal_amount := None |}.

(** [today] is [format(new Date(), "dd-MM-yyyy")]; [seq] is the value the
    identity sequence hands out next. *)
Definition handleSubmit (transport : option Store.PostgrestError)
    (seq : Z) (today : string) (st : State) (tbl : list Entry)
  : State * list Entry * list Effect :=
  let '(error, tbl') :=
    Store.insert transport seq [insert_payload (formData st)] tbl in
  match error with
  | Some _ =>
      (st, tbl', [toast_error "Failed to save entry"; console_error "Error:"])
  | None =>
      ({| formData := mkForm NR today "" "" "" "" 0;
          suggestions := suggestions st;
          showSuggestions := showSuggestions st |},
       tbl',
       [toast_success "Entry saved successfully!"])
  end.

(** The date input hands over yyyy-MM-dd; the form keeps dd-MM-yyyy. *)
Definition handleDateChange (inputDate : string) (st : State) : State :=
  let parts := split "-"%char inputDate in
  let formattedDate :=
    (interpolate parts 2 ++ "-" ++ interpolate parts 1 ++ "-"
       ++ interpolate parts 0)%string in
  {| formData :=
       mkForm (type (formData st)) formattedDate (customerName (formData st))
         (customerAddress (formData st)) (customerMobile (formData st))
         (items (formData st)) (givenAmount (formData st));
     suggestions := suggestions st;
     showSuggestions := showSuggestions st |}.

(** Convert dd-MM-yyyy to yyyy-MM-dd for input value. *)
Definition getInputDateValue (st : State) : string :=
  let parts := split "-"%char (date (formData st)) in
  (interpolate parts 2 ++ "-" ++ interpolate parts 1 ++ "-"
     ++ interpolate parts 0)%string.

(** Remove duplicates based on customer name: the callback of
    [data.reduce] pushes [current] unless a kept item has its name. *)
Definition keep_first (acc : list CustomerSuggestion.t)
    (current : CustomerSuggestion.t) : list CustomerSuggestion.t :=
  if existsb
       (fun item =>
          String.eqb (CustomerSuggestion.customer_name item)
            (CustomerSuggestion.customer_name current)) acc
  then acc
  else acc ++ [current].

Definition uniqueCustomers (data : list CustomerSuggestion.t)
  : list CustomerSuggestion.t :=
  fold_left keep_first data [].

Section Suggest.

(** [s.trim()] is the runtime's (it strips Unicode white space). *)
Variable trim : string -> string.

(** [response] is the outcome of the name query: an error, or at most
    five rows ordered by name. *)
Definition searchCustomers
    (response : Store.PostgrestError + list CustomerSuggestion.t)
    (searchTerm : string) (st : State) : State * list Effect :=
  if String.eqb (trim searchTerm) "" then
    ({| formData := formData st; suggestions := [];
        showSuggestions := showSuggestions st |}, [])
  else
    match response with
    | inl _ => (st, [console_error "Error searching customers:"])
    | inr data =>
        ({| formData := formData st;
            suggestions := uniqueCustomers data;
            showSuggestions := true |}, [])
    end.

End Suggest.

Definition handleSuggestionClick (suggestion : CustomerSuggestion.t)
    (st : State) : State :=
  {| formData :=
       mkForm (type (formData st)) (date (formData st))
         (CustomerSuggestion.customer_name suggestion)
         (CustomerSuggestion.customer_address suggestion)
         (match CustomerSuggestion.customer_mobile suggestion with
          | Some m => m
          | None => ""
          end)
         (items (formData st)) (givenAmount (formData st));
     suggestions := suggestions st;
     showSuggestions := false |}.

End EntryForm.

(** ** The rest of the settled view *)

Module SettledEntriesView.

Definition formatDate (dateStr : string) : string :=
  if String.eqb dateStr "" then ""
  else
    let parts := split "-"%char dateStr in
    (interpolate parts 2 ++ "-" ++ interpolate parts 1 ++ "-"
       ++ interpolate parts 0)%string.

Section Search.

Variable toLowerCase : string -> string.
Variable toString : Z -> string.

Definition matches (term : string) (entry : SettledEntry.t) : bool :=
  String_includes (toLowerCase (SettledEntry.customer_name entry))
    (toLowerCase term)
  || match SettledEntry.customer_mobile entry with
     | Some mobile => String_includes (toLowerCase mobile) (toLowerCase term)
     | None => false
     end
  || String_includes (toLowerCase (SettledEntry.type entry)) (toLowerCase term)
  || String_includes (toString (SettledEntry.given_amount entry)) term
  || String_includes (toString (SettledEntry.settled_amount entry)) term.

Definition filteredEntries (st : SettledEntries.State) : list SettledEntry.t :=
  List.filter (matches (SettledEntries.searchTerm st)) (SettledEntries.entries st).

End Search.

End SettledEntriesView.

(** ** Reporting ([Report]) *)

(** One per-type bucket of [ReportStats.loanTypes]. *)
Module LoanTypeStats.
Record t : Type := mk {
  total : Z;
  active : Z;
  settled : Z;
  invested : Z;
  earned : Z
}.

Definition zero : t := mk 0 0 0 0 0.
End LoanTypeStats.

Module Report.

(** The accumulator the reduction starts from: [ReportStats] without
    [profit]. *)
Record Acc : Type := mkAcc {
  acc_totalLoans : Z;
  acc_activeLoans : Z;
  acc_settledLoans : Z;
  acc_totalInvested : Z;
  acc_totalEarned : Z;
  acc_loanTypes : gmap string LoanTypeStats.t
}.

Record ReportStats : Type := mkStats {
  totalLoans : Z;
  activeLoans : Z;
  settledLoans : Z;
  totalInvested : Z;
  totalEarned : Z;
  profit : Z;
  loanTypes : gmap string LoanTypeStats.t
}.

(** In-place updates of one bucket. *)
Definition incr_total (b : LoanTypeStats.t) : LoanTypeStats.t :=
  LoanTypeStats.mk (LoanTypeStats.total b + 1) (LoanTypeStats.active b)
    (LoanTypeStats.settled b) (LoanTypeStats.invested b) (LoanTypeStats.earned b).

Definition add_invested (v : Z) (b : LoanTypeStats.t) : LoanTypeStats.t :=
  LoanTypeStats.mk (LoanTypeStats.total b) (LoanTypeStats.active b)
    (LoanTypeStats.settled b) (LoanTypeStats.invested b + v) (LoanTypeStats.earned b).

Definition incr_active (b : LoanTypeStats.t) : LoanTypeStats.t :=
  LoanTypeStats.mk (LoanTypeStats.total b) (LoanTypeStats.active b + 1)
    (LoanTypeStats.settled b) (LoanTypeStats.invested b) (LoanTypeStats.earned b).

Definition incr_settled (b : LoanTypeStats.t) : LoanTypeStats.t :=
  LoanTypeStats.mk (LoanTypeStats.total b) (LoanTypeStats.active b)
    (LoanTypeStats.settled b + 1) (LoanTypeStats.invested b) (LoanTypeStats.earned b).

Definition add_earned (v : Z) (b : LoanTypeStats.t) : LoanTypeStats.t :=
  LoanTypeStats.mk (LoanTypeStats.total b) (LoanTypeStats.active b)
    (LoanTypeStats.settled b) (LoanTypeStats.invested b) (LoanTypeStats.earned b + v).

(** The callback of [data.reduce]. *)
Definition reducer (acc : Acc) (entry : Entry) : Acc :=
  (* Initialize loan type stats if not exists *)
  let types0 :=
    match acc_loanTypes acc !! type entry with
    | Some _ => acc_loanTypes acc
    | None => <[type entry := LoanTypeStats.zero]> (acc_loanTypes acc)
    end in
  (* Update overall stats *)
  let totalLoans1 := acc_totalLoans acc + 1 in
  let totalInvested1 := acc_totalInvested acc + given_amount entry in
  (* Update loan type specific stats *)
  let types1 := alter incr_total (type entry) types0 in
  let types2 := alter (add_invested (given_amount entry)) (type entry) types1 in
  match status entry with
  | active =>
      mkAcc totalLoans1 (acc_activeLoans acc + 1) (acc_settledLoans acc)
        totalInvested1 (acc_totalEarned acc)
        (alter incr_active (type entry) types2)
  | settled =>
      mkAcc totalLoans1 (acc_activeLoans acc) (acc_settledLoans acc + 1)
        totalInvested1
        (acc_totalEarned acc + or_zero (settled_amount entry))
        (alter (add_earned (or_zero (settled_amount entry))) (type entry)
           (alter incr_settled (type entry) types2))
  end.

Definition initial : Acc := mkAcc 0 0 0 0 0 ∅.

Definition calculateStats (data : list Entry) : ReportStats :=
  let stats := fold_left reducer data initial in
  {| totalLoans := acc_totalLoans stats;
     activeLoans := acc_activeLoans stats;
     settledLoans := acc_settledLoans stats;
     totalInvested := acc_totalInvested stats;
     totalEarned := acc_totalEarned stats;
     profit := acc_totalEarned stats - acc_totalInvested stats;
     loanTypes := acc_loanTypes stats |}.

(** *** Import *)

(** [item.key]: [None] is [undefined]. *)
Fixpoint lookup_field (key : string) (fields : list (string * json)) : option json :=
  match fields with
  | [] => None
  | (k, v) :: rest => if String.eqb k key then Some v else lookup_field key rest
  end.

Definition prop (item : json) (key : string) : option json :=
  match item with
  | JObject fields => lookup_field key fields
  | _ => None
  end.

(** [typeof item === 'object'] *)
Definition typeof_object (item : json) : bool :=
  match item with
  | JNull | JArray _ | JObject _ => true
  | _ => false
  end.

Definition is_null (item : json) : bool :=
  match item with
  | JNull => true
  | _ => false
  end.

(** [typeof v === 'string'], [typeof v === 'number'], [v === null],
    [v === undefined] on the value of a property. *)
Definition typeof_string (v : option json) : bool :=
  match v with
  | Some (JString _) => true
  | _ => false
  end.

Definition typeof_number (v : option json) : bool :=
  match v with
  | Some (JNumber _) => true
  | _ => false
  end.

Definition eq_null (v : option json) : bool :=
  match v with
  | Some JNull => true
  | _ => false
  end.

Definition eq_undefined (v : option json) : bool :=
  match v with
  | None => true
  | _ => false
  end.

(** [list.includes(v)] for a list of strings. *)
Definition includes (l : list string) (v : option json) : bool :=
  match v with
  | Some (JString s) => existsb (String.eqb s) l
  | _ => false
  end.

(** The callback of [data.every]. *)
Definition valid_item (item : json) : bool :=
  typeof_object item
  && negb (is_null item)
  && typeof_string (prop item "type")
  && includes ["NR"; "R"; "Vyapari"] (prop item "type")
  && typeof_string (prop item "date")
  && typeof_string (prop item "customer_name")
  && typeof_string (prop item "customer_address")
  && (eq_null (prop item "customer_mobile")
      || typeof_string (prop item "customer_mobile"))
  && typeof_string (prop item "items")
  && typeof_number (prop item "given_amount")
  && includes ["active"; "settled"] (prop item "status")
  && (eq_undefined (prop item "settled_amount")
      || typeof_number (prop item "settled_amount"))
  && (eq_undefined (prop item "settled_date")
      || typeof_string (prop item "settled_date"))
  && (eq_undefined (prop item "settlement_notes")
      || eq_null (prop item "settlement_notes")
      || typeof_string (prop item "settlement_notes")).

Definition validateImportData (data : list json) : bool :=
  forallb valid_item data.

(** The outcome of [JSON.parse(text)]: a value, or a thrown
    [SyntaxError] with its message. *)
Inductive Parsed : Type :=
| syntax_error (message : string)
| parsed (value : json).

Section ImportData.

Variable JSON_parse : string -> Parsed.
Variable decode : json -> option Store.InsertRow.

(** The [catch] block, for a thrown [Error] with message [m]. *)
Definition failed (m : string) : list Effect :=
  [ console_error "Error importing data:"; toast_error m; reset_file_input ].

(** [file] is [event.target.files?.[0]], read as text. *)
Definition importData (transport : option Store.PostgrestError) (seq : Z)
    (file : option string) (tbl : list Entry) : list Entry * list Effect :=
  match file with
  | None => (tbl, [])
  | Some text =>
      match JSON_parse text with
      | syntax_error m => (tbl, failed m)
      | parsed (JArray data) =>
          if negb (validateImportData data) then
            (tbl, failed "Invalid data format: Some entries are missing required fields or have invalid values")
          else
            let '(error, tbl') :=
              Store.insert_items decode transport seq data tbl in
            match error with
            | Some e =>
                (tbl',
                 failed (if Store.instanceof_Error e then Store.message e
                         else "Failed to import data"))
            | None =>
                (tbl',
                 [ toast_success "Data imported successfully";
                   fetchEntries; reset_file_input ])
            end
      | parsed _ => (tbl, failed "Imported data must be an array")
      end
  end.

End ImportData.

(** *** Dates of the range controls *)

(** Convert dd-MM-yyyy to yyyy-MM-dd for database query. *)
Definition convertDateFormat (date : string) : string :=
  let parts := split "-"%char date in
  (interpolate parts 2 ++ "-" ++ interpolate parts 1 ++ "-"
     ++ interpolate parts 0)%string.

Record DateRange : Type := mkRange {
  start : string;
  end_ : string
}.

Inductive Field : Type := field_start | field_end.

(** Convert yyyy-MM-dd to dd-MM-yyyy and store it in the chosen field. *)
Definition handleCustomDateChange (field : Field) (value : string)
    (prev : DateRange) : DateRange :=
  let parts := split "-"%char value in
  let formattedDate :=
    (interpolate parts 2 ++ "-" ++ interpolate parts 1 ++ "-"
       ++ interpolate parts 0)%string in
  match field with
  | field_start => mkRange formattedDate (end_ prev)
  | field_end => mkRange (start prev) formattedDate
  end.

(** Convert dd-MM-yyyy to yyyy-MM-dd for input value. *)
Definition getInputDateValue (date : string) : string :=
  let parts := split "-"%char date in
  (interpolate parts 2 ++ "-" ++ interpolate parts 1 ++ "-"
     ++ interpolate parts 0)%string.

(** *** Export *)

(** A cell of the sheet: a number or a text. *)
Inductive Cell : Type :=
| cell_number (n : Z)
| cell_text (s : string).

(** One row of the sheet, in column order: Type, Date, Customer Name,
    Given Amount, Status, Settled Amount, Settled Date. *)
Record SheetRow : Type := mkSheetRow {
  col_Type : string;
  col_Date : string;
  col_Customer_Name : string;
  col_Given_Amount : Z;
  col_Status : Status;
  col_Settled_Amount : Cell;
  col_Settled_Date : string
}.

(** The callback of [entries.map] in [exportToExcel]; [x || ''] is the
    empty text for a missing, null, zero or empty [x]. *)
Definition sheet_row (entry : Entry) : SheetRow :=
  {| col_Type := type entry;
     col_Date := date entry;
     col_Customer_Name := customer_name entry;
     col_Given_Amount := given_amount entry;
     col_Status := status entry;
     col_Settled_Amount :=
       match settled_amount entry with
       | Some v => if v =? 0 then cell_text "" else cell_number v
       | None => cell_text ""
       end;
     col_Settled_Date :=
       match settled_date entry with
       | Some d => d
       | None => ""
       end |}.

Definition exportToExcel (entries : list Entry) : list SheetRow :=
  map sheet_row entries.

(** The value [JSON.parse] reads back from the text [exportToJSON] writes
    for one fetched row: one key per column of the table, null for a
    column without value.  [created_at] is the column the row type leaves
    out. *)
Definition json_of_option {A} (f : A -> json) (x : option A) : json :=
  match x with
  | Some v => f v
  | None => JNull
  end.

Definition json_of_renewal (r : Renewal) : json :=
  JObject
    [ ("date", JString (r_date r)); ("amount", JNumber (r_amount r));
      ("settled_amount", JNumber (r_settled_amount r));
      ("renewal_date", JString (r_renewal_date r));
      ("new_amount", JNumber (r_new_amount r)) ].

Definition status_name (st : Status) : string :=
  match st with
  | active => "active"
  | settled => "settled"
  end.

Definition exported_row (created_at : string) (entry : Entry) : json :=
  JObject
    [ ("id", JNumber (id entry));
      ("type", JString (type entry));
      ("date", JString (date entry));
      ("customer_name", JString (customer_name entry));
      ("customer_address", JString (customer_address entry));
      ("customer_mobile", json_of_option JString (customer_mobile entry));
      ("items", JString (items entry));
      ("given_amount", JNumber (given_amount entry));
      ("created_at", JString created_at);
      ("status", JString (status_name (status entry)));
      ("settled_amount", json_of_option JNumber (settled_amount entry));
      ("settled_date", json_of_option JString (settled_date entry));
      ("settlement_notes", json_of_option JString (settlement_notes entry));
      ("renewal_history",
       json_of_option (fun h => JArray (map json_of_renewal h))
         (renewal_history entry));
      ("renewal_date", json_of_option JString (renewal_date entry));
      ("renewal_amount", json_of_option JNumber (renewal_amount entry)) ].

End Report.

(** ** The aggregation over JavaScript numbers

    The sums of the report are sums of JavaScript numbers, and the
    breakdown is an object literal.  Here the aggregation is written once
    for any kind of number, given its zero, its addition and subtraction
    and its truthiness, so that it can be run on binary64 numbers as the
    browser does and on exact integers.  The counts are whole numbers far
    below 2^53, on which binary64 arithmetic is exact: they stay in [Z].
    The object [{}] inherits the members of [Object.prototype]: for a
    type that is one of their names the lookup [acc.loanTypes[type]]
    yields the inherited member, which is truthy, so no bucket is created
    and the updates that follow land on that member, not on [loanTypes]. *)

(** [interface Entry] of the report, over a kind of number. *)
Module JSEntry.
Record t (num : Type) : Type := mk {
  id : num;
  type : string;
  date : string;
  customer_name : string;
  customer_address : string;
  customer_mobile : option string;
  items : string;
  given_amount : num;
  status : Status;
  settled_amount : option num;
  settled_date : option string;
  settlement_notes : option string
}.
Arguments mk {num}.
Arguments id {num}.
Arguments type {num}.
Arguments date {num}.
Arguments customer_name {num}.
Arguments customer_address {num}.
Arguments customer_mobile {num}.
Arguments items {num}.
Arguments given_amount {num}.
Arguments status {num}.
Arguments settled_amount {num}.
Arguments settled_date {num}.
Arguments settlement_notes {num}.

(** The same entry with its numbers read in another kind of number. *)
Definition amounts {A B : Type} (f : A -> B) (e : t A) : t B :=
  mk (f (id e)) (type e) (date e) (customer_name e) (customer_address e)
    (customer_mobile e) (items e) (f (given_amount e)) (status e)
    (option_map f (settled_amount e)) (settled_date e) (settlement_notes e).
End JSEntry.

Module JSLoanTypeStats.
Record t (num : Type) : Type := mk {
  total : Z;
  active : Z;
  settled : Z;
  invested : num;
  earned : num
}.
Arguments mk {num}.
Arguments total {num}.
Arguments active {num}.
Arguments settled {num}.
Arguments invested {num}.
Arguments earned {num}.
End JSLoanTypeStats.

Module JSReport.

(** The member names of [Object.prototype]. *)
Definition Object_prototype : list string :=
  [ "constructor"; "__defineGetter__"; "__defineSetter__"; "hasOwnProperty";
    "__lookupGetter__"; "__lookupSetter__"; "isPrototypeOf";
    "propertyIsEnumerable"; "toString"; "valueOf"; "__proto__";
    "toLocaleString" ].

Definition inherited (key : string) : bool :=
  existsb (String.eqb key) Object_prototype.

Section Numbers.

Variable num : Type.
Variable zero : num.
Variable add : num -> num -> num.
Variable sub : num -> num -> num.
Variable truthy : num -> bool.

Record Acc : Type := mkAcc {
  acc_totalLoans : Z;
  acc_activeLoans : Z;
  acc_settledLoans : Z;
  acc_totalInvested : num;
  acc_totalEarned : num;
  acc_loanTypes : gmap string (JSLoanTypeStats.t num)
}.

Record ReportStats : Type := mkStats {
  totalLoans : Z;
  activeLoans : Z;
  settledLoans : Z;
  totalInvested : num;
  totalEarned : num;
  profit : num;
  loanTypes : gmap string (JSLoanTypeStats.t num)
}.

(** [x || 0] *)
Definition or_zero (x : option num) : num :=
  match x with
  | Some v => if truthy v then v else zero
  | None => zero
  end.

Definition empty_bucket : JSLoanTypeStats.t num :=
  JSLoanTypeStats.mk 0 0 0 zero zero.

Definition incr_total (b : JSLoanTypeStats.t num) : JSLoanTypeStats.t num :=
  JSLoanTypeStats.mk (JSLoanTypeStats.total b + 1) (JSLoanTypeStats.active b)
    (JSLoanTypeStats.settled b) (JSLoanTypeStats.invested b)
    (JSLoanTypeStats.earned b).

Definition add_invested (v : num) (b : JSLoanTypeStats.t num) : JSLoanTypeStats.t num :=
  JSLoanTypeStats.mk (JSLoanTypeStats.total b) (JSLoanTypeStats.active b)
    (JSLoanTypeStats.settled b) (add (JSLoanTypeStats.invested b) v)
    (JSLoanTypeStats.earned b).

Definition incr_active (b : JSLoanTypeStats.t num) : JSLoanTypeStats.t num :=
  JSLoanTypeStats.mk (JSLoanTypeStats.total b) (JSLoanTypeStats.active b + 1)
    (JSLoanTypeStats.settled b) (JSLoanTypeStats.invested b)
    (JSLoanTypeStats.earned b).

Definition incr_settled (b : JSLoanTypeStats.t num) : JSLoanTypeStats.t num :=
  JSLoanTypeStats.mk (JSLoanTypeStats.total b) (JSLoanTypeStats.active b)
    (JSLoanTypeStats.settled b + 1) (JSLoanTypeStats.invested b)
    (JSLoanTypeStats.earned b).

Definition add_earned (v : num) (b : JSLoanTypeStats.t num) : JSLoanTypeStats.t num :=
  JSLoanTypeStats.mk (JSLoanTypeStats.total b) (JSLoanTypeStats.active b)
    (JSLoanTypeStats.settled b) (JSLoanTypeStats.invested b)
    (add (JSLoanTypeStats.earned b) v).

(** The statements of the callback that write to [acc.loanTypes[type]],
    for a type that is no inherited name. *)
Definition own_bucket_updates (entry : JSEntry.t num)
    (types : gmap string (JSLoanTypeStats.t num))
  : gmap string (JSLoanTypeStats.t num) :=
  let ty := JSEntry.type entry in
  let types0 :=
    match types !! ty with
    | Some _ => types
    | None => <[ty := empty_bucket]> types
    end in
  let types1 := alter incr_total ty types0 in
  let types2 := alter (add_invested (JSEntry.given_amount entry)) ty types1 in
  match JSEntry.status entry with
  | active => alter incr_active ty types2
  | settled =>
      alter (add_earned (or_zero (JSEntry.settled_amount entry))) ty
        (alter incr_settled ty types2)
  end.

(** The callback of [data.reduce]. *)
Definition reducer (acc : Acc) (entry : JSEntry.t num) : Acc :=
  let types :=
    if inherited (JSEntry.type entry) then acc_loanTypes acc
    else own_bucket_updates entry (acc_loanTypes acc) in
  let totalLoans1 := acc_totalLoans acc + 1 in
  let totalInvested1 := add (acc_totalInvested acc) (JSEntry.given_amount entry) in
  match JSEntry.status entry with
  | active =>
      mkAcc totalLoans1 (acc_activeLoans acc + 1) (acc_settledLoans acc)
        totalInvested1 (acc_totalEarned acc) types
  | settled =>
      mkAcc totalLoans1 (acc_activeLoans acc) (acc_settledLoans acc + 1)
        totalInvested1
        (add (acc_totalEarned acc) (or_zero (JSEntry.settled_amount entry)))
        types
  end.

Definition initial : Acc := mkAcc 0 0 0 zero zero ∅.

Definition calculateStats (data : list (JSEntry.t num)) : ReportStats :=
  let stats := fold_left reducer data initial in
  {| totalLoans := acc_totalLoans stats;
     activeLoans := acc_activeLoans stats;
     settledLoans := acc_settledLoans stats;
     totalInvested := acc_totalInvested stats;
     totalEarned := acc_totalEarned stats;
     profit := sub (acc_totalEarned stats) (acc_totalInvested stats);
     loanTypes := acc_loanTypes stats |}.

End Numbers.

Arguments acc_totalLoans {num}.
Arguments acc_activeLoans {num}.
Arguments acc_settledLoans {num}.
Arguments acc_totalInvested {num}.
Arguments acc_totalEarned {num}.
Arguments acc_loanTypes {num}.
Arguments totalLoans {num}.
Arguments activeLoans {num}.
Arguments settledLoans {num}.
Arguments totalInvested {num}.
Arguments totalEarned {num}.
Arguments profit {num}.
Arguments loanTypes {num}.

(** Binary64 numbers, as the browser has them: [+0], [-0] and NaN are
    falsy. *)
Definition truthy64 (x : PrimFloat.float) : bool :=
  negb (PrimFloat.eqb x PrimFloat.zero) && PrimFloat.eqb x x.

Definition calculateStats64 (data : list (JSEntry.t PrimFloat.float))
  : ReportStats PrimFloat.float :=
  calculateStats PrimFloat.float PrimFloat.zero PrimFloat.add PrimFloat.sub
    truthy64 data.

(** The whole number [a] as a binary64 number. *)
Definition whole64 (a : Z) : PrimFloat.float :=
  PrimFloat.of_uint63 (Uint63.of_Z a).

End JSReport.

(** The sum of one figure over all the buckets of a breakdown, for a
    given addition. *)
Definition sum_buckets {num A : Type} (plus : A -> A -> A) (z : A)
    (f : JSLoanTypeStats.t num -> A)
    (m : gmap string (JSLoanTypeStats.t num)) : A :=
  map_fold (fun _ b s => plus (f b) s) z m.

(** The type of the entry is no member name of [Object.prototype]. *)
Definition own_type {num : Type} (e : JSEntry.t num) : Prop :=
  JSReport.inherited (JSEntry.type e) = false.

(** Whole-number amounts: the settled amount of an entry, 0 when it has
    none, and the sum of a figure over a list. *)
Definition whole_settled (e : JSEntry.t Z) : Z :=
  match JSEntry.settled_amount e with
  | Some v => v
  | None => 0
  end.

Definition total_of {A : Type} (f : A -> Z) (l : list A) : Z :=
  fold_right (fun e s => f e + s) 0 l.

(** A bucket and an accumulator of whole numbers, read in another kind of
    number. *)
Definition lift_bucket {num : Type} (of_Z : Z -> num)
    (b : JSLoanTypeStats.t Z) : JSLoanTypeStats.t num :=
  JSLoanTypeStats.mk (JSLoanTypeStats.total b) (JSLoanTypeStats.active b)
    (JSLoanTypeStats.settled b) (of_Z (JSLoanTypeStats.invested b))
    (of_Z (JSLoanTypeStats.earned b)).

Definition lift_acc {num : Type} (of_Z : Z -> num)
    (acc : JSReport.Acc Z) : JSReport.Acc num :=
  JSReport.mkAcc num (JSReport.acc_totalLoans acc)
    (JSReport.acc_activeLoans acc) (JSReport.acc_settledLoans acc)
    (of_Z (JSReport.acc_totalInvested acc))
    (of_Z (JSReport.acc_totalEarned acc))
    (lift_bucket of_Z <$> JSReport.acc_loanTypes acc).

(** What the whole-number run keeps true: no figure is negative, no
    bucket exceeds the totals, and the totals are the sums of the
    buckets. *)
Definition whole_balanced (acc : JSReport.Acc Z) : Prop :=
  0 <= JSReport.acc_totalInvested acc
  /\ 0 <= JSReport.acc_totalEarned acc
  /\ (forall t b, JSReport.acc_loanTypes acc !! t = Some b ->
        0 <= JSLoanTypeStats.invested b <= JSReport.acc_totalInvested acc
        /\ 0 <= JSLoanTypeStats.earned b <= JSReport.acc_totalEarned acc)
  /\ JSReport.acc_totalInvested acc
     = sum_buckets Z.add 0 JSLoanTypeStats.invested (JSReport.acc_loanTypes acc)
  /\ JSReport.acc_totalEarned acc
     = sum_buckets Z.add 0 JSLoanTypeStats.earned (JSReport.acc_loanTypes acc).

(** What one entry adds to the bucket of its type. *)
Definition js_bump {num : Type} (zero : num) (add : num -> num -> num)
    (truthy : num -> bool) (e : JSEntry.t num) (b : JSLoanTypeStats.t num)
  : JSLoanTypeStats.t num :=
  match JSEntry.status e with
  | active =>
      JSLoanTypeStats.mk (JSLoanTypeStats.total b + 1)
        (JSLoanTypeStats.active b + 1) (JSLoanTypeStats.settled b)
        (add (JSLoanTypeStats.invested b) (JSEntry.given_amount e))
        (JSLoanTypeStats.earned b)
  | settled =>
      JSLoanTypeStats.mk (JSLoanTypeStats.total b + 1)
        (JSLoanTypeStats.active b) (JSLoanTypeStats.settled b + 1)
        (add (JSLoanTypeStats.invested b) (JSEntry.given_amount e))
        (add (JSLoanTypeStats.earned b)
           (JSReport.or_zero num zero truthy (JSEntry.settled_amount e)))
  end.

(** ** The session guard and the tabs ([App]) *)

Module App.

Record User : Type := mkUser { user_id : string }.

(** [navItems]. *)
Inductive NavItem : Type := nav_entry | nav_taken | nav_settled | nav_report.

Definition navItems : list NavItem :=
  [nav_entry; nav_taken; nav_settled; nav_report].

Definition nav_id (item : NavItem) : string :=
  match item with
  | nav_entry => "entry"
  | nav_taken => "taken"
  | nav_settled => "settled"
  | nav_report => "report"
  end.

Definition nav_label (item : NavItem) : string :=
  match item with
  | nav_entry => "Entry"
  | nav_taken => "Taken Entry"
  | nav_settled => "Settled Entry"
  | nav_report => "Report"
  end.

Record State : Type := mkState {
  activeTab : string;
  user : option User;
  isLoading : bool
}.

Definition initial : State := mkState "entry" None true.

(** What happens to the component: the session check returns (an error,
    or the session's user if there is a session), the auth listener
    fires, a tab of the navigation bar is clicked, the sign-out request
    returns (with or without error). *)
Inductive Event : Type :=
| session_checked (outcome : Store.PostgrestError + option User)
| auth_state_changed (session_user : option User)
| tab_clicked (item : NavItem)
| signed_out (error : option Store.PostgrestError).

Definition step (st : State) (ev : Event) : State :=
  match ev with
  | session_checked (inl _) => mkState (activeTab st) None false
  | session_checked (inr u) => mkState (activeTab st) u false
  | auth_state_changed u => mkState (activeTab st) u (isLoading st)
  | tab_clicked item =>
      (* the navigation bar is rendered for a signed-in user only *)
      match user st with
      | Some _ => mkState (nav_id item) (user st) (isLoading st)
      | None => st
      end
  | signed_out (Some _) => st
  | signed_out None => mkState "entry" None (isLoading st)
  end.

Definition run (events : list Event) : State := fold_left step events initial.

Inductive Content : Type :=
| spinner
| AuthForm
| EntryForm
| TakenEntries
| SettledEntries
| Report
| placeholder (label : option string).

Definition renderContent (st : State) : Content :=
  if isLoading st then spinner
  else
    match user st with
    | None => AuthForm
    | Some _ =>
        if String.eqb (activeTab st) "entry" then EntryForm
        else if String.eqb (activeTab st) "taken" then TakenEntries
        else if String.eqb (activeTab st) "settled" then SettledEntries
        else if String.eqb (activeTab st) "report" then Report
        else
          placeholder
            (option_map nav_label
               (find (fun item => String.eqb (nav_id item) (activeTab st))
                  navItems))
    end.

End App.

(** ** Sums and counts the statements speak of *)

Definition sum_of (f : Entry -> Z) (l : list Entry) : Z :=
  fold_right (fun e s => f e + s) 0 l.

Definition count_of (p : Entry -> bool) (l : list Entry) : Z :=
  Z.of_nat (length (List.filter p l)).

Definition is_active (e : Entry) : bool := Status_eqb (status e) active.

Definition is_settled (e : Entry) : bool := Status_eqb (status e) settled.

Definition of_type (t : string) (e : Entry) : bool := String.eqb (type e) t.

(** The settled amount of an entry, 0 when it has none. *)
Definition earned_of (e : Entry) : Z :=
  match settled_amount e with
  | Some v => v
  | None => 0
  end.

(** The five figures of a list of entries: how many, how many active, how
    many settled, the principal lent, the settled amounts of the settled
    ones. *)
Definition bucket_of (l : list Entry) : LoanTypeStats.t :=
  {| LoanTypeStats.total := Z.of_nat (length l);
     LoanTypeStats.active := count_of is_active l;
     LoanTypeStats.settled := count_of is_settled l;
     LoanTypeStats.invested := sum_of given_amount l;
     LoanTypeStats.earned := sum_of earned_of (List.filter is_settled l) |}.

(** What one entry adds to the bucket of its type. *)
Definition bump (e : Entry) (b : LoanTypeStats.t) : LoanTypeStats.t :=
  {| LoanTypeStats.total := LoanTypeStats.total b + 1;
     LoanTypeStats.active :=
       LoanTypeStats.active b + (if is_active e then 1 else 0);
     LoanTypeStats.settled :=
       LoanTypeStats.settled b + (if is_settled e then 1 else 0);
     LoanTypeStats.invested := LoanTypeStats.invested b + given_amount e;
     LoanTypeStats.earned :=
       LoanTypeStats.earned b + (if is_settled e then earned_of e else 0) |}.

(** ** The import validation as the specification words it

    Required fields correctly typed and in the closed sets; each of the
    optional fields [customer_mobile], [settled_amount], [settled_date],
    [settlement_notes] absent or correctly typed.  An absent field is read
    in the widest sense: the key is missing, or its value is null. *)

Definition absent_or (typed : option json -> bool) (v : option json) : bool :=
  match v with
  | None | Some JNull => true
  | Some _ => typed v
  end.

Definition valid_item_as_specified (item : json) : bool :=
  match item with
  | JObject _ =>
      Report.includes ["NR"; "R"; "Vyapari"] (Report.prop item "type")
      && Report.typeof_string (Report.prop item "date")
      && Report.typeof_string (Report.prop item "customer_name")
      && Report.typeof_string (Report.prop item "customer_address")
      && Report.typeof_string (Report.prop item "items")
      && Report.typeof_number (Report.prop item "given_amount")
      && Report.includes ["active"; "settled"] (Report.prop item "status")
      && absent_or Report.typeof_string (Report.prop item "customer_mobile")
      && absent_or Report.typeof_number (Report.prop item "settled_amount")
      && absent_or Report.typeof_string (Report.prop item "settled_date")
      && absent_or Report.typeof_string (Report.prop item "settlement_notes")
  | _ => false
  end.

(** An element whose [type] is not one of the three types, or whose
    [status] is not one of the two statuses. *)
Definition outside_closed_sets (item : json) : Prop :=
  ~ (exists s, Report.prop item "type" = Some (JString s)
               /\ In s ["NR"; "R"; "Vyapari"])
  \/ ~ (exists s, Report.prop item "status" = Some (JString s)
                  /\ In s ["active"; "settled"]).

(** A piece of a date: a text without the separator. *)
Fixpoint dash_free (s : string) : bool :=
  match s with
  | EmptyString => true
  | String c s' => negb (Ascii.eqb c "-"%char) && dash_free s'
  end.

(** Three pieces joined by the separator. *)
Definition dashed (a b c : string) : string :=
  (a ++ "-" ++ b ++ "-" ++ c)%string.

(** The names of a list of suggestions. *)
Definition names (l : list CustomerSuggestion.t) : list string :=
  map CustomerSuggestion.customer_name l.

(** The keys the import validation reads. *)
Definition validated_keys : list string :=
  [ "type"; "date"; "customer_name"; "customer_address"; "customer_mobile";
    "items"; "given_amount"; "status"; "settled_amount"; "settled_date";
    "settlement_notes" ].

(** ** Sample data *)

Definition loan (i : Z) (ty d : string) (amount : Z) : Entry :=
  {| id := i; type := ty; date := d;
     customer_name := "Asha"; customer_address := "12 Market Road";
     customer_mobile := None; items := "gold ring";
     given_amount := amount; status := active;
     settled_amount := None; settled_date := None; settlement_notes := None;
     renewal_history := None; renewal_date := None; renewal_amount := None |}.

Definition settled_loan (i : Z) (ty d : string) (amount extra : Z) (on : string) : Entry :=
  {| id := i; type := ty; date := d;
     customer_name := "Asha"; customer_address := "12 Market Road";
     customer_mobile := None; items := "gold ring";
     given_amount := amount; status := settled;
     settled_amount := Some extra; settled_date := Some on;
     settlement_notes := None;
     renewal_history := None; renewal_date := None; renewal_amount := None |}.

(** The active view with [sel] chosen and both forms filled in. *)
Definition view (shown : list Entry) (sel : Entry)
    (s : SettlementFormData.t) (r : RenewalFormData.t) : TakenEntries.State :=
  {| TakenEntries.entries := shown;
     TakenEntries.searchTerm := "";
     TakenEntries.selectedDate := "";
     TakenEntries.loading := false;
     TakenEntries.selectedEntry := Some sel;
     TakenEntries.showSettlementModal := true;
     TakenEntries.showRenewalModal := true;
     TakenEntries.settlementData := s;
     TakenEntries.renewalData := r |}.

Definition loan1 : Entry := loan 1 "NR" "2025-01-01" 1000.

Definition settle1 : SettlementFormData.t :=
  SettlementFormData.mk 1200 "2025-01-10" "".

Definition renew1 : RenewalFormData.t :=
  RenewalFormData.mk 1100 "2025-02-01" 1500.

Definition view1 : TakenEntries.State := view [loan1] loan1 settle1 renew1.

(** The table after another session settled entry 1. *)
Definition settled_elsewhere : list Entry :=
  [settled_loan 1 "NR" "2025-01-01" 1000 150 "2025-01-09"].

(** A filled-in entry form. *)
Definition form1 : EntryForm.State :=
  {| EntryForm.formData :=
       EntryForm.mkForm Vyapari "05-03-2025" "Ravi" "4 Station Road" ""
         "two bangles" 2500;
     EntryForm.suggestions := [];
     EntryForm.showSuggestions := false |}.

(** Three active and two settled loans of mixed types. *)
Definition five_loans : list Entry :=
  [ loan 1 "NR" "2025-01-01" 1000;
    settled_loan 2 "R" "2025-01-03" 2000 300 "2025-02-03";
    loan 3 "NR" "2025-01-05" 500;
    settled_loan 4 "NR" "2025-01-07" 4000 250 "2025-03-01";
    loan 5 "Vyapari" "2025-01-09" 700 ].

(** Elements of an import file. *)
Definition item (ty : string) (mobile : list (string * json)) (st : string)
    (more : list (string * json)) : json :=
  JObject
    ([ ("type", JString ty); ("date", JString "2025-01-01");
       ("customer_name", JString "Asha");
       ("customer_address", JString "12 Market Road") ]
     ++ mobile
     ++ [ ("items", JString "gold ring"); ("given_amount", JNumber 1000);
          ("status", JString st) ]
     ++ more).

Definition good_item : json := item "NR" [("customer_mobile", JNull)] "active" [].

Definition item_without_mobile : json := item "NR" [] "active" [].

Definition item_of_unknown_type : json :=
  item "Gold" [("customer_mobile", JNull)] "active" [].

Definition item_with_null_settled_amount : json :=
  item "NR" [("customer_mobile", JNull)] "active" [("settled_amount", JNull)].

(** A reading of validated elements as rows, for the examples. *)
Definition text_of (v : option json) : string :=
  match v with
  | Some (JString s) => s
  | _ => ""
  end.

Definition sample_decode (it : json) : option Store.InsertRow :=
  if Report.valid_item it then
    Some {| Store.i_type := text_of (Report.prop it "type");
            Store.i_date := text_of (Report.prop it "date");
            Store.i_customer_name := text_of (Report.prop it "customer_name");
            Store.i_customer_address := text_of (Report.prop it "customer_address");
            Store.i_customer_mobile :=
              match Report.prop it "customer_mobile" with
              | Some (JString s) => Some s
              | _ => None
              end;
            Store.i_items := text_of (Report.prop it "items");
            Store.i_given_amount :=
              match Report.prop it "given_amount" with
              | Some (JNumber n) => n
              | _ => 0
              end;
            Store.i_status :=
              if String.eqb (text_of (Report.prop it "status")) "settled"
              then Some settled else Some active;
            Store.i_settled_amount :=
              match Report.prop it "settled_amount" with
              | Some (JNumber n) => Some n
              | _ => None
              end;
            Store.i_settled_date :=
              match Report.prop it "settled_date" with
              | Some (JString s) => Some s
              | _ => None
              end;
            Store.i_settlement_notes :=
              match Report.prop it "settlement_notes" with
              | Some (JString s) => Some s
              | _ => None
              end;
            Store.i_renewal_history := None;
            Store.i_renewal_date := None;
            Store.i_renewal_amount := None |}
  else None.

(** A file whose text parses to the given array. *)
Definition parses_to (data : list json) (text : string) : Report.Parsed :=
  Report.parsed (JArray data).

(** A suggestion picked from the list. *)
Definition suggestion1 : CustomerSuggestion.t :=
  CustomerSuggestion.mk "Meera" "7 Temple Street" (Some "").

(** A well-typed element with a negative principal. *)
Definition item_with_negative_amount : json :=
  JObject
    [ ("type", JString "R"); ("date", JString "2025-01-01");
      ("customer_name", JString "Asha");
      ("customer_address", JString "12 Market Road");
      ("customer_mobile", JNull);
      ("items", JString "gold ring"); ("given_amount", JNumber (-5));
      ("status", JString "active") ].

(** Loans of the report over binary64 numbers: three active loans with
    two-decimal amounts, and five loans with whole-number amounts. *)
Section Binary64Samples.

Import PrimFloat.

Definition loan64 (id : float) (ty : string) (amount : float)
  : JSEntry.t float :=
  JSEntry.mk id ty "2025-01-01" "Asha" "12 Temple Street" None "gold ring"
    amount active None None None.

Definition settled_loan64 (id : float) (ty : string) (amount total : float)
  : JSEntry.t float :=
  JSEntry.mk id ty "2025-01-01" "Asha" "12 Temple Street" None "gold ring"
    amount settled (Some total) (Some "2025-02-01") None.

Definition three_loans64 : list (JSEntry.t float) :=
  [ loan64 1%float "R" 93.67%float;
    loan64 2%float "NR" 2766.8%float;
    loan64 3%float "R" 921.57%float ].

Definition five_loans64 : list (JSEntry.t float) :=
  [ loan64 1%float "NR" 1000%float;
    settled_loan64 2%float "R" 2000%float 300%float;
    loan64 3%float "NR" 500%float;
    settled_loan64 4%float "NR" 4000%float 250%float;
    loan64 5%float "Vyapari" 700%float ].

End Binary64Samples.

(** Two loans with small whole-number amounts. *)
Definition two_whole_loans : list (JSEntry.t Z) :=
  [ JSEntry.mk 1 "NR" "2025-01-01" "Asha" "12 Temple Street" None "gold ring"
      1 active None None None;
    JSEntry.mk 2 "R" "2025-01-03" "Ravi" "4 Station Road" None "two bangles"
      2 settled (Some 3) (Some "2025-02-03") None ].

(** * Properties *)

(** ** Requests against the table *)

Section StoreFacts.

Import Store.

Lemma Status_eqb_eq a b : Status_eqb a b = true <-> a = b.
Proof. destruct a, b; simpl; split; congruence. Qed.

Lemma selects_id_status (i : Z) (s : Status) (r : Entry) :
  selects [eq_id i; eq_status s] r = true <-> id r = i /\ status r = s.
Proof.
  unfold selects; simpl.
  rewrite andb_true_r, andb_true_iff, Z.eqb_eq, Status_eqb_eq.
  reflexivity.
Qed.

Lemma write_selected p fs r :
  selects fs r = true -> write p fs r = apply_payload p r.
Proof. unfold write; intros ->; reflexivity. Qed.

Lemma write_skipped p fs r :
  selects fs r = false -> write p fs r = r.
Proof. unfold write; intros ->; reflexivity. Qed.

(** An update none of whose written rows breaks a constraint is carried
    out on every selected row. *)
Lemma update_accepted p fs tbl :
  (forall r, In r tbl -> selects fs r = true ->
             row_check (apply_payload p r) = true) ->
  update None p fs tbl = (None, map (write p fs) tbl).
Proof.
  intros Hok; unfold update.
  replace (forallb _ _) with true; [reflexivity|].
  symmetry; apply forallb_forall; intros r Hr.
  apply filter_In in Hr as [Hin Hsel].
  rewrite (write_selected _ _ _ Hsel); auto.
Qed.

(** A relation that holds between each row and its written image holds
    between the table and its image, row by row. *)
Lemma Forall2_written (P : Entry -> Entry -> Prop) f (tbl : list Entry) :
  (forall r, In r tbl -> P r (f r)) -> Forall2 P tbl (map f tbl).
Proof.
  induction tbl as [|r tbl IH]; simpl; intros H; constructor; auto.
Qed.

Lemma table_ok_In tbl r : table_ok tbl -> In r tbl -> row_check r = true.
Proof.
  unfold table_ok; rewrite Forall_forall; intros H Hin.
  apply H, list_elem_of_In, Hin.
Qed.

Lemma row_check_parts r :
  row_check r = true <->
  type_check r = true /\ given_amount_check r = true
  /\ settlement_details_required r = true /\ renewal_details_check r = true.
Proof. unfold row_check; rewrite !andb_true_iff; tauto. Qed.

End StoreFacts.

(** ** Settling an active loan *)

Section Settle.

Import Store TakenEntries.

(** A settled row keeps the constraints when the row it comes from
    satisfied them. *)
Lemma settle_payload_check sel d r :
  row_check r = true -> row_check (apply_payload (settle_payload sel d) r) = true.
Proof.
  rewrite !row_check_parts; intros (Ht & Hg & _ & Hr).
  destruct r; simpl in *; repeat split; assumption.
Qed.

Lemma settle_accepted sel d tbl :
  table_ok tbl ->
  update None (settle_payload sel d) (only_active sel) tbl
  = (None, map (write (settle_payload sel d) (only_active sel)) tbl).
Proof.
  intros Hok; apply update_accepted; intros r Hin _.
  apply settle_payload_check, (table_ok_In tbl); assumption.
Qed.

Lemma or_null_spec s : or_null s = if decide (s = "") then None else Some s.
Proof.
  unfold or_null; destruct (String.eqb_spec s ""); case_decide; congruence.
Qed.

(** What the settle handler does once the request went through. *)
Lemma handleSettleSubmit_done st tbl sel :
  selectedEntry st = Some sel ->
  table_ok tbl ->
  handleSettleSubmit None st tbl
  = ({| entries := List.filter (fun entry => negb (id entry =? id sel)) (entries st);
        searchTerm := searchTerm st;
        selectedDate := selectedDate st;
        loading := loading st;
        selectedEntry := selectedEntry st;
        showSettlementModal := false;
        showRenewalModal := showRenewalModal st;
        settlementData := settlementData st;
        renewalData := renewalData st |},
     map (write (settle_payload sel (settlementData st)) (only_active sel)) tbl,
     [toast_success "Loan settled successfully"]).
Proof.
  intros Hsel Hok; unfold handleSettleSubmit.
  rewrite Hsel, settle_accepted by assumption; reflexivity.
Qed.

End Settle.

(** C1. Settling: for an active entry [sel] of the table chosen in the
    view and a settlement form whose total is at least the entry's
    principal, the request goes through and the entry's row becomes a
    settled row: status [settled], [settled_amount] the total minus the
    principal (the non-negative extra amount, not the total),
    [settled_date] the chosen date, [settlement_notes] the notes, or null
    for empty notes.  The same holds of every row with the entry's id that
    is active at write time; a row that is not active then, or has another
    id, is left as it is. *)
Theorem settle_stores_extra_amount
    (st : TakenEntries.State) (tbl : list Entry) (sel : Entry) :
  TakenEntries.selectedEntry st = Some sel ->
  In sel tbl ->
  status sel = active ->
  Store.table_ok tbl ->
  given_amount sel <= SettlementFormData.total_amount (TakenEntries.settlementData st) ->
  let d := TakenEntries.settlementData st in
  let extra := SettlementFormData.total_amount d - given_amount sel in
  let notes := if decide (SettlementFormData.notes d = "") then None
               else Some (SettlementFormData.notes d) in
  exists st' tbl',
    TakenEntries.handleSettleSubmit None st tbl
    = (st', tbl', [toast_success "Loan settled successfully"])
    /\ 0 <= extra
    /\ In {| id := id sel; type := type sel; date := date sel;
             customer_name := customer_name sel;
             customer_address := customer_address sel;
             customer_mobile := customer_mobile sel;
             items := items sel; given_amount := given_amount sel;
             status := settled;
             settled_amount := Some extra;
             settled_date := Some (SettlementFormData.date d);
             settlement_notes := notes;
             renewal_history := renewal_history sel;
             renewal_date := renewal_date sel;
             renewal_amount := renewal_amount sel |} tbl'
    /\ Forall2 (fun r r' =>
         if decide (id r = id sel /\ status r = active)
         then status r' = settled
              /\ settled_amount r' = Some extra
              /\ settled_date r' = Some (SettlementFormData.date d)
              /\ settlement_notes r' = notes
         else r' = r) tbl tbl'.
Proof.
  intros Hsel Hin Hact Hok Hle d extra notes.
  eexists _, _; split; [apply handleSettleSubmit_done; eassumption|].
  split; [subst extra d; lia|].
  split.
  - apply in_map_iff; exists sel; split; [|assumption].
    rewrite write_selected by (apply selects_id_status; auto).
    subst notes extra d; destruct sel; simpl in *; subst.
    rewrite or_null_spec; reflexivity.
  - apply Forall2_written; intros r _.
    case_decide as Hc.
    + apply selects_id_status in Hc.
      rewrite (write_selected _ _ _ Hc).
      destruct r; simpl; repeat split; apply or_null_spec.
    + apply write_skipped.
      destruct (Store.selects _ r) eqn:E; [|reflexivity].
      apply selects_id_status in E; contradiction.
Qed.

Lemma settle_stores_extra_amount_witness :
  exists st' tbl',
    TakenEntries.handleSettleSubmit None view1 [loan1]
    = (st', tbl', [toast_success "Loan settled successfully"])
    /\ 0 <= 1200 - 1000
    /\ In (settled_loan 1 "NR" "2025-01-01" 1000 200 "2025-01-10") tbl'.
Proof.
  destruct (settle_stores_extra_amount view1 [loan1] loan1)
    as (st' & tbl' & Hrun & Hextra & Hrow & _).
  - reflexivity.
  - left; reflexivity.
  - reflexivity.
  - repeat constructor.
  - simpl; lia.
  - exists st', tbl'; repeat split; assumption.
Defined.

(** The scenario of the specification: principal 1000 settled at 1200 on
    2025-01-10 stores the extra amount 200. *)
Example settle_scenario :
  TakenEntries.handleSettleSubmit None view1 [loan1]
  = (TakenEntries.mkState [] "" "" false (Some loan1) false true settle1 renew1,
     [settled_loan 1 "NR" "2025-01-01" 1000 200 "2025-01-10"],
     [toast_success "Loan settled successfully"]).
Proof. reflexivity. Qed.

(** ** A settle request that finds no active row *)

(** A request whose filters select no row is accepted and changes
    nothing. *)
Lemma update_no_row p fs tbl :
  (forall r, In r tbl -> Store.selects fs r = false) ->
  Store.update None p fs tbl = (None, tbl).
Proof.
  intros Hnone.
  rewrite update_accepted.
  - f_equal. rewrite <- (map_id tbl) at 2.
    apply map_ext_in; intros r Hr; apply write_skipped; auto.
  - intros r Hr Hsel; rewrite (Hnone r Hr) in Hsel; discriminate.
Qed.

Lemma not_active_not_selected (sel r : Entry) :
  (id r = id sel -> status r <> active) ->
  Store.selects (TakenEntries.only_active sel) r = false.
Proof.
  intros H; destruct (Store.selects _ r) eqn:E; [|reflexivity].
  apply selects_id_status in E as [Hid Hst]; destruct (H Hid Hst).
Qed.

(** C5, as the code has it.  When no row with the chosen entry's id is
    active at write time, the settle request changes no row and reports no
    error; the handler then goes on as after any accepted request: it
    announces success, closes the settlement dialog and drops every entry
    with that id from the local list, the stale entry included; the rest
    of the view's state is as it was. *)
Theorem settle_race_drops_entry
    (st : TakenEntries.State) (tbl : list Entry) (sel : Entry) :
  TakenEntries.selectedEntry st = Some sel ->
  (forall r, In r tbl -> id r = id sel -> status r <> active) ->
  exists st',
    TakenEntries.handleSettleSubmit None st tbl
    = (st', tbl, [toast_success "Loan settled successfully"])
    /\ TakenEntries.showSettlementModal st' = false
    /\ TakenEntries.entries st'
       = List.filter (fun entry => negb (id entry =? id sel)) (TakenEntries.entries st)
    /\ ~ In sel (TakenEntries.entries st')
    /\ TakenEntries.selectedEntry st' = Some sel
    /\ TakenEntries.showRenewalModal st' = TakenEntries.showRenewalModal st
    /\ TakenEntries.settlementData st' = TakenEntries.settlementData st
    /\ TakenEntries.renewalData st' = TakenEntries.renewalData st
    /\ TakenEntries.searchTerm st' = TakenEntries.searchTerm st
    /\ TakenEntries.selectedDate st' = TakenEntries.selectedDate st
    /\ TakenEntries.loading st' = TakenEntries.loading st.
Proof.
  intros Hsel Hstale.
  unfold TakenEntries.handleSettleSubmit; rewrite Hsel.
  rewrite update_no_row
    by (intros r Hr; apply not_active_not_selected; auto).
  eexists; split; [reflexivity|].
  split; [reflexivity|]; split; [reflexivity|].
  split; [|repeat split; simpl; auto].
  simpl; rewrite filter_In, Z.eqb_refl; simpl; intros [_ H]; discriminate.
Qed.

Lemma settle_race_drops_entry_witness :
  exists st',
    TakenEntries.handleSettleSubmit None view1 settled_elsewhere
    = (st', settled_elsewhere, [toast_success "Loan settled successfully"])
    /\ TakenEntries.showSettlementModal st' = false
    /\ TakenEntries.entries st' = []
    /\ ~ In loan1 (TakenEntries.entries st').
Proof.
  destruct (settle_race_drops_entry view1 settled_elsewhere loan1)
    as (st' & Hrun & Hclosed & Hlist & Hgone & _).
  - reflexivity.
  - intros r [<-|[]] _; discriminate.
  - exists st'; repeat split; assumption.
Defined.

(** C5, as stated, fails: the row of entry 1 was settled by another
    session, so the predicate finds no active row; the table is left as
    it was and no error is reported, yet the stale entry, which the view
    held before the operation, is no longer in the local list. *)
Lemma settle_race_keeps_entry_counterexample :
  (forall r, In r settled_elsewhere -> id r = id loan1 -> status r <> active)
  /\ In loan1 (TakenEntries.entries view1)
  /\ exists st',
       TakenEntries.handleSettleSubmit None view1 settled_elsewhere
       = (st', settled_elsewhere, [toast_success "Loan settled successfully"])
       /\ ~ In loan1 (TakenEntries.entries st').
Proof.
  split; [intros r [<-|[]] _; discriminate|].
  split; [left; reflexivity|].
  eexists; split; [reflexivity|].
  simpl; tauto.
Qed.

(** ** Renewing an active loan *)

Section Renew.

Import Store TakenEntries.

(** A renewed row keeps the constraints when the row it comes from
    satisfied them and the new principal is not negative. *)
Lemma renewal_payload_check sel d r :
  0 <= RenewalFormData.new_loan_amount d ->
  row_check r = true ->
  row_check (apply_payload (renewal_payload sel d) r) = true.
Proof.
  intros Hnew; rewrite !row_check_parts; intros (Ht & _ & Hs & _).
  destruct r; simpl in *; repeat split; try assumption.
  unfold given_amount_check; simpl; apply Z.leb_le, Hnew.
Qed.

Lemma handleRenewalSubmit_done st tbl sel :
  selectedEntry st = Some sel ->
  table_ok tbl ->
  0 <= RenewalFormData.new_loan_amount (renewalData st) ->
  handleRenewalSubmit None st tbl
  = ({| entries := entries st;
        searchTerm := searchTerm st;
        selectedDate := selectedDate st;
        loading := loading st;
        selectedEntry := selectedEntry st;
        showSettlementModal := showSettlementModal st;
        showRenewalModal := false;
        settlementData := settlementData st;
        renewalData := renewalData st |},
     map (write (renewal_payload sel (renewalData st)) (only_active sel)) tbl,
     [toast_success "Loan renewed successfully"; fetchEntries]).
Proof.
  intros Hsel Hok Hnew; unfold handleRenewalSubmit; rewrite Hsel.
  rewrite update_accepted; [reflexivity|].
  intros r Hin _.
  apply renewal_payload_check; [assumption|].
  apply (table_ok_In tbl); assumption.
Qed.

End Renew.

(** C2. Renewing: for an active entry [sel] of the table chosen in the
    view and renewal inputs the form admits (a new principal that is not
    negative), the request goes through and the entry's row becomes the row
    whose [renewal_history] is the stored history followed by exactly one
    new element, made of the date and principal before the renewal, the
    settlement amount, the renewal date and the new principal; whose [date]
    is the renewal date and [given_amount] the new principal; whose
    [renewal_date] and [renewal_amount] are both present; and whose status
    and every other column are as before.  Rows that are not active at
    write time, or have another id, are left as they are. *)
Theorem renew_appends_one_cycle
    (st : TakenEntries.State) (tbl : list Entry) (sel : Entry) :
  TakenEntries.selectedEntry st = Some sel ->
  In sel tbl ->
  status sel = active ->
  Store.table_ok tbl ->
  0 <= RenewalFormData.new_loan_amount (TakenEntries.renewalData st) ->
  let d := TakenEntries.renewalData st in
  let cycle :=
    {| r_date := date sel;
       r_amount := given_amount sel;
       r_settled_amount := RenewalFormData.settlement_amount d;
       r_renewal_date := RenewalFormData.renewal_date d;
       r_new_amount := RenewalFormData.new_loan_amount d |} in
  let stored_history :=
    match renewal_history sel with Some h => h | None => [] end in
  exists st' tbl',
    TakenEntries.handleRenewalSubmit None st tbl
    = (st', tbl', [toast_success "Loan renewed successfully"; fetchEntries])
    /\ In {| id := id sel; type := type sel;
             date := RenewalFormData.renewal_date d;
             customer_name := customer_name sel;
             customer_address := customer_address sel;
             customer_mobile := customer_mobile sel;
             items := items sel;
             given_amount := RenewalFormData.new_loan_amount d;
             status := active;
             settled_amount := settled_amount sel;
             settled_date := settled_date sel;
             settlement_notes := settlement_notes sel;
             renewal_history := Some (stored_history ++ [cycle]);
             renewal_date := Some (RenewalFormData.renewal_date d);
             renewal_amount := Some (RenewalFormData.settlement_amount d) |} tbl'
    /\ Forall2 (fun r r' =>
         if decide (id r = id sel /\ status r = active)
         then renewal_history r' = Some (stored_history ++ [cycle])
              /\ date r' = RenewalFormData.renewal_date d
              /\ given_amount r' = RenewalFormData.new_loan_amount d
              /\ is_Some (renewal_date r') /\ is_Some (renewal_amount r')
              /\ status r' = active
         else r' = r) tbl tbl'.
Proof.
  intros Hsel Hin Hact Hok Hnew d cycle stored_history.
  eexists _, _; split; [apply handleRenewalSubmit_done; eassumption|].
  split.
  - apply in_map_iff; exists sel; split; [|assumption].
    rewrite write_selected by (apply selects_id_status; auto).
    subst stored_history cycle d; destruct sel; simpl in *; subst; reflexivity.
  - apply Forall2_written; intros r _.
    case_decide as Hc.
    + destruct Hc as [Hid Hst].
      rewrite write_selected by (apply selects_id_status; auto).
      destruct r; simpl in *; subst; repeat split; eauto.
    + apply write_skipped.
      destruct (Store.selects _ r) eqn:E; [|reflexivity].
      apply selects_id_status in E; contradiction.
Qed.

Lemma renew_appends_one_cycle_witness :
  exists st' tbl',
    TakenEntries.handleRenewalSubmit None view1 [loan1]
    = (st', tbl', [toast_success "Loan renewed successfully"; fetchEntries])
    /\ In {| id := 1; type := "NR"; date := "2025-02-01";
             customer_name := "Asha"; customer_address := "12 Market Road";
             customer_mobile := None; items := "gold ring";
             given_amount := 1500; status := active;
             settled_amount := None; settled_date := None;
             settlement_notes := None;
             renewal_history :=
               Some [mkRenewal "2025-01-01" 1000 1100 "2025-02-01" 1500];
             renewal_date := Some "2025-02-01";
             renewal_amount := Some 1100 |} tbl'.
Proof.
  destruct (renew_appends_one_cycle view1 [loan1] loan1)
    as (st' & tbl' & Hrun & Hrow & _).
  - reflexivity.
  - left; reflexivity.
  - reflexivity.
  - repeat constructor.
  - simpl; lia.
  - exists st', tbl'; split; assumption.
Defined.

(** The scenario of the specification: the loan of 2025-01-01 with
    principal 1000 renewed on 2025-02-01 at 1100 with new principal 1500. *)
Example renew_scenario :
  TakenEntries.handleRenewalSubmit None view1 [loan1]
  = (TakenEntries.mkState [loan1] "" "" false (Some loan1) true false settle1 renew1,
     [ {| id := 1; type := "NR"; date := "2025-02-01";
          customer_name := "Asha"; customer_address := "12 Market Road";
          customer_mobile := None; items := "gold ring";
          given_amount := 1500; status := active;
          settled_amount := None; settled_date := None;
          settlement_notes := None;
          renewal_history :=
            Some [mkRenewal "2025-01-01" 1000 1100 "2025-02-01" 1500];
          renewal_date := Some "2025-02-01";
          renewal_amount := Some 1100 |} ],
     [toast_success "Loan renewed successfully"; fetchEntries]).
Proof. reflexivity. Qed.

(** ** Revoking a settlement *)

Section Revoke.

Import Store SettledEntries.

(** Whatever the outcome of an update, a relation that holds between a row
    and itself and between a row and its written image holds between the
    table before and after, row by row. *)
Lemma update_Forall2 (P : Entry -> Entry -> Prop) transport p fs tbl :
  (forall r, P r r) ->
  (forall r, P r (write p fs r)) ->
  Forall2 P tbl (snd (update transport p fs tbl)).
Proof.
  intros Hsame Hwritten; unfold update.
  assert (Hid : Forall2 P tbl tbl).
  { rewrite <- (map_id tbl) at 2; apply Forall2_written; auto. }
  destruct transport; [exact Hid|].
  destruct (forallb _ _); [|exact Hid].
  apply Forall2_written; auto.
Qed.

Lemma revoke_payload_check r :
  row_check r = true -> row_check (apply_payload revoke_payload r) = true.
Proof.
  rewrite !row_check_parts; intros (Ht & Hg & _ & Hr).
  destruct r; simpl in *; repeat split; assumption.
Qed.

Lemma handleRevoke_done id0 st tbl :
  table_ok tbl ->
  handleRevoke true None id0 st tbl
  = ({| entries :=
          List.filter (fun entry => negb (SettledEntry.id entry =? id0)) (entries st);
        searchTerm := searchTerm st;
        selectedDate := selectedDate st;
        loading := loading st |},
     map (write revoke_payload (only_settled id0)) tbl,
     [toast_success "Settlement revoked successfully"]).
Proof.
  intros Hok; unfold handleRevoke.
  rewrite update_accepted; [reflexivity|].
  intros r Hin _; apply revoke_payload_check, (table_ok_In tbl); assumption.
Qed.

End Revoke.

(** C3. Revoking: for a settled entry [e] of the table, the confirmed
    request goes through and the entry's row becomes active with
    [settled_amount], [settled_date] and [settlement_notes] all null.  The
    same holds of every row with that id that is settled at write time; a
    row that is not settled then, or has another id, is left as it is. *)
Theorem revoke_clears_settlement
    (st : SettledEntries.State) (tbl : list Entry) (e : Entry) :
  In e tbl ->
  status e = settled ->
  Store.table_ok tbl ->
  exists st' tbl',
    SettledEntries.handleRevoke true None (id e) st tbl
    = (st', tbl', [toast_success "Settlement revoked successfully"])
    /\ In {| id := id e; type := type e; date := date e;
             customer_name := customer_name e;
             customer_address := customer_address e;
             customer_mobile := customer_mobile e;
             items := items e; given_amount := given_amount e;
             status := active;
             settled_amount := None; settled_date := None;
             settlement_notes := None;
             renewal_history := renewal_history e;
             renewal_date := renewal_date e;
             renewal_amount := renewal_amount e |} tbl'
    /\ Forall2 (fun r r' =>
         if decide (id r = id e /\ status r = settled)
         then status r' = active
              /\ settled_amount r' = None
              /\ settled_date r' = None
              /\ settlement_notes r' = None
         else r' = r) tbl tbl'.
Proof.
  intros Hin Hset Hok.
  eexists _, _; split; [apply handleRevoke_done; assumption|].
  split.
  - apply in_map_iff; exists e; split; [|assumption].
    rewrite write_selected by (apply selects_id_status; auto).
    destruct e; simpl in *; subst; reflexivity.
  - apply Forall2_written; intros r _.
    case_decide as Hc.
    + rewrite write_selected by (apply selects_id_status; auto).
      destruct r; simpl; auto.
    + apply write_skipped.
      destruct (Store.selects _ r) eqn:E; [|reflexivity].
      apply selects_id_status in E; contradiction.
Qed.

Lemma revoke_clears_settlement_witness :
  exists st' tbl',
    SettledEntries.handleRevoke true None 1
      (SettledEntries.mkState [] "" "" false)
      [settled_loan 1 "NR" "2025-01-01" 1000 200 "2025-01-10"]
    = (st', tbl', [toast_success "Settlement revoked successfully"])
    /\ In loan1 tbl'.
Proof.
  destruct (revoke_clears_settlement (SettledEntries.mkState [] "" "" false)
              [settled_loan 1 "NR" "2025-01-01" 1000 200 "2025-01-10"]
              (settled_loan 1 "NR" "2025-01-01" 1000 200 "2025-01-10"))
    as (st' & tbl' & Hrun & Hrow & _).
  - left; reflexivity.
  - reflexivity.
  - repeat constructor.
  - exists st', tbl'; split; assumption.
Defined.

(** The scenario of the specification: the loan settled above, revoked. *)
Example revoke_scenario :
  SettledEntries.handleRevoke true None 1
    (SettledEntries.mkState [] "" "" false)
    [settled_loan 1 "NR" "2025-01-01" 1000 200 "2025-01-10"]
  = (SettledEntries.mkState [] "" "" false, [loan1],
     [toast_success "Settlement revoked successfully"]).
Proof. reflexivity. Qed.

(** C9. Revoking writes [status], [settled_amount], [settled_date] and
    [settlement_notes] only: whatever the answer to the confirmation and
    the outcome of the request, every row keeps its id, type, date,
    customer name, address and mobile, items, principal, renewal history,
    renewal date and renewal amount. *)
Theorem revoke_keeps_other_columns
    (confirmed : bool) (transport : option Store.PostgrestError)
    (id0 : Z) (st : SettledEntries.State) (tbl : list Entry) :
  Forall2 (fun r r' =>
      id r' = id r /\ type r' = type r /\ date r' = date r
      /\ customer_name r' = customer_name r
      /\ customer_address r' = customer_address r
      /\ customer_mobile r' = customer_mobile r
      /\ items r' = items r /\ given_amount r' = given_amount r
      /\ renewal_history r' = renewal_history r
      /\ renewal_date r' = renewal_date r
      /\ renewal_amount r' = renewal_amount r)
    tbl (snd (fst (SettledEntries.handleRevoke confirmed transport id0 st tbl))).
Proof.
  unfold SettledEntries.handleRevoke.
  destruct confirmed; simpl.
  - pose proof (update_Forall2
      (fun r r' =>
         id r' = id r /\ type r' = type r /\ date r' = date r
         /\ customer_name r' = customer_name r
         /\ customer_address r' = customer_address r
         /\ customer_mobile r' = customer_mobile r
         /\ items r' = items r /\ given_amount r' = given_amount r
         /\ renewal_history r' = renewal_history r
         /\ renewal_date r' = renewal_date r
         /\ renewal_amount r' = renewal_amount r)
      transport SettledEntries.revoke_payload
      (SettledEntries.only_settled id0) tbl) as H.
    destruct (Store.update _ _ _ tbl) as [[err|] tbl']; simpl in *;
      apply H; intros r; try tauto;
      unfold Store.write; destruct (Store.selects _ r); destruct r; simpl; tauto.
  - rewrite <- (map_id tbl) at 2; apply Forall2_written; tauto.
Qed.

(** ** Creating an entry *)

Lemma insert_payload_check (seq : Z) (f : EntryForm.EntryFormData) :
  0 <= EntryForm.givenAmount f ->
  Store.row_check (Store.stored seq (EntryForm.insert_payload f)) = true.
Proof.
  intros Hamount; apply row_check_parts; repeat split.
  - destruct f as [[] ? ? ? ? ? ?]; reflexivity.
  - apply Z.leb_le, Hamount.
Qed.

(** C8. Creation: for every draft the entry form lets through, the insert
    goes through and adds exactly one row, with the draft's values, whose
    status is [active] (the column default) and whose settlement and
    renewal columns ([settled_amount], [settled_date], [settlement_notes],
    [renewal_history], [renewal_date], [renewal_amount]) are all null; the
    form goes back to its defaults. *)
Theorem submit_inserts_active_entry
    (seq : Z) (today : string) (st : EntryForm.State) (tbl : list Entry) :
  EntryForm.form_valid (EntryForm.formData st) = true ->
  exists row,
    EntryForm.handleSubmit None seq today st tbl
    = ({| EntryForm.formData := EntryForm.mkForm NR today "" "" "" "" 0;
          EntryForm.suggestions := EntryForm.suggestions st;
          EntryForm.showSuggestions := EntryForm.showSuggestions st |},
       tbl ++ [row],
       [toast_success "Entry saved successfully!"])
    /\ type row = type_name (EntryForm.type (EntryForm.formData st))
    /\ customer_name row = EntryForm.customerName (EntryForm.formData st)
    /\ given_amount row = EntryForm.givenAmount (EntryForm.formData st)
    /\ status row = active
    /\ settled_amount row = None
    /\ settled_date row = None
    /\ settlement_notes row = None
    /\ renewal_history row = None
    /\ renewal_date row = None
    /\ renewal_amount row = None.
Proof.
  intros Hvalid.
  unfold EntryForm.form_valid in Hvalid.
  apply andb_true_iff in Hvalid as [_ Hamount]; apply Z.leb_le in Hamount.
  exists (Store.stored seq (EntryForm.insert_payload (EntryForm.formData st))).
  split; [|repeat split].
  unfold EntryForm.handleSubmit, Store.insert.
  cbn [Store.number forallb].
  rewrite insert_payload_check by assumption; reflexivity.
Qed.

Lemma submit_inserts_active_entry_witness :
  exists row,
    EntryForm.handleSubmit None 7 "06-03-2025" form1 [loan1]
    = ({| EntryForm.formData := EntryForm.mkForm NR "06-03-2025" "" "" "" "" 0;
          EntryForm.suggestions := [];
          EntryForm.showSuggestions := false |},
       [loan1; row],
       [toast_success "Entry saved successfully!"])
    /\ type row = "Vyapari" /\ given_amount row = 2500
    /\ status row = active
    /\ settled_amount row = None /\ settled_date row = None
    /\ settlement_notes row = None /\ renewal_history row = None
    /\ renewal_date row = None /\ renewal_amount row = None.
Proof.
  destruct (submit_inserts_active_entry 7 "06-03-2025" form1 [loan1])
    as (row & Hrun & Hty & _ & Hga & Hrest).
  - reflexivity.
  - exists row; split; [exact Hrun|]; split; [exact Hty|]; split; [exact Hga|].
    exact Hrest.
Defined.

(** The row a concrete draft leaves in the table. *)
Example submit_scenario :
  EntryForm.handleSubmit None 7 "06-03-2025" form1 [loan1]
  = ({| EntryForm.formData := EntryForm.mkForm NR "06-03-2025" "" "" "" "" 0;
        EntryForm.suggestions := [];
        EntryForm.showSuggestions := false |},
     [loan1;
      {| id := 7; type := "Vyapari"; date := "2025-03-05";
         customer_name := "Ravi"; customer_address := "4 Station Road";
         customer_mobile := None; items := "two bangles";
         given_amount := 2500; status := active;
         settled_amount := None; settled_date := None;
         settlement_notes := None; renewal_history := None;
         renewal_date := None; renewal_amount := None |}],
     [toast_success "Entry saved successfully!"]).
Proof. reflexivity. Qed.

(** ** The report's aggregation *)

Section Aggregation.

Import Report.

(** The reduction step rewrites the bucket of the entry's type and nothing
    else. *)
Ltac bucket_arith :=
  unfold bump, incr_total, add_invested, incr_active, incr_settled,
    add_earned, is_active, is_settled, earned_of, or_zero,
    LoanTypeStats.zero;
  repeat match goal with H : status _ = _ |- _ => rewrite H end;
  simpl; f_equal; lia.

Lemma reducer_loanTypes acc e :
  acc_loanTypes (reducer acc e)
  = <[type e := bump e (default LoanTypeStats.zero (acc_loanTypes acc !! type e))]>
      (acc_loanTypes acc).
Proof.
  unfold reducer.
  destruct (acc_loanTypes acc !! type e) as [b|] eqn:Hb.
  - destruct (status e) eqn:Hs; cbn [acc_loanTypes default];
      rewrite <- (insert_id _ _ _ Hb);
      rewrite !alter_insert_eq, insert_insert_eq; f_equal;
      destruct b; bucket_arith.
  - destruct (status e) eqn:Hs; cbn [acc_loanTypes default];
      rewrite !alter_insert_eq; f_equal; bucket_arith.
Qed.

Lemma reducer_totals acc e :
  acc_totalLoans (reducer acc e) = acc_totalLoans acc + 1
  /\ acc_activeLoans (reducer acc e)
     = acc_activeLoans acc + (if is_active e then 1 else 0)
  /\ acc_settledLoans (reducer acc e)
     = acc_settledLoans acc + (if is_settled e then 1 else 0)
  /\ acc_totalInvested (reducer acc e) = acc_totalInvested acc + given_amount e
  /\ acc_totalEarned (reducer acc e)
     = acc_totalEarned acc + (if is_settled e then earned_of e else 0).
Proof.
  unfold reducer, is_active, is_settled, earned_of, or_zero.
  destruct (status e); simpl; repeat split; lia.
Qed.

Lemma sum_of_snoc f l e : sum_of f (l ++ [e]) = sum_of f l + f e.
Proof.
  unfold sum_of; induction l as [|x l IH]; simpl; [lia|].
  rewrite IH; lia.
Qed.

Lemma count_of_snoc p l e :
  count_of p (l ++ [e]) = count_of p l + (if p e then 1 else 0).
Proof.
  unfold count_of; rewrite List.filter_app; simpl.
  destruct (p e); rewrite length_app; simpl; lia.
Qed.

Lemma bucket_of_snoc l e : bucket_of (l ++ [e]) = bump e (bucket_of l).
Proof.
  unfold bucket_of, bump; simpl.
  rewrite !count_of_snoc, sum_of_snoc, List.filter_app, length_app; simpl.
  f_equal; try lia.
  destruct (is_settled e); [apply sum_of_snoc | rewrite app_nil_r; lia].
Qed.

Lemma of_type_true t e : of_type t e = true <-> type e = t.
Proof. unfold of_type; apply String.eqb_eq. Qed.

(** After the reduction has run over [data], the accumulator holds the
    figures of [data], and for each type the figures of the entries of
    that type. *)
Lemma fold_reducer_figures data :
  let acc := fold_left reducer data initial in
  acc_totalLoans acc = Z.of_nat (length data)
  /\ acc_activeLoans acc = count_of is_active data
  /\ acc_settledLoans acc = count_of is_settled data
  /\ acc_totalInvested acc = sum_of given_amount data
  /\ acc_totalEarned acc = sum_of earned_of (List.filter is_settled data)
  /\ forall t,
       acc_loanTypes acc !! t
       = match List.filter (of_type t) data with
         | [] => None
         | _ :: _ => Some (bucket_of (List.filter (of_type t) data))
         end.
Proof.
  induction data as [|e data IH] using rev_ind.
  - simpl; repeat split; intros t; apply lookup_empty.
  - cbn zeta in *; rewrite fold_left_app; cbn [fold_left].
    destruct IH as (Hn & Ha & Hs & Hi & He & Ht).
    destruct (reducer_totals (fold_left reducer data initial) e)
      as (Hn' & Ha' & Hs' & Hi' & He').
    rewrite Hn', Ha', Hs', Hi', He', Hn, Ha, Hs, Hi, He.
    rewrite !count_of_snoc, sum_of_snoc, !List.filter_app, length_app.
    repeat split; try (simpl; lia).
    + simpl; destruct (is_settled e);
        [rewrite sum_of_snoc | rewrite app_nil_r]; lia.
    + intros t.
      rewrite reducer_loanTypes, lookup_insert, List.filter_app.
      cbn [List.filter]; case_decide as Hty.
      * rewrite (proj2 (of_type_true t e) Hty), bucket_of_snoc, Hty, Ht.
        destruct (List.filter (of_type t) data); reflexivity.
      * destruct (of_type t e) eqn:Hof;
          [apply of_type_true in Hof; contradiction|].
        rewrite app_nil_r; apply Ht.
Qed.

End Aggregation.


(** The synthetic set of the specification: three active and two settled
    entries. *)
Example calculateStats_five_loans :
  Report.calculateStats five_loans
  = {| Report.totalLoans := 5;
       Report.activeLoans := 3;
       Report.settledLoans := 2;
       Report.totalInvested := 8200;
       Report.totalEarned := 550;
       Report.profit := -7650;
       Report.loanTypes :=
         {[ "NR" := LoanTypeStats.mk 3 2 1 5500 250;
            "R" := LoanTypeStats.mk 1 0 1 2000 300;
            "Vyapari" := LoanTypeStats.mk 1 1 0 700 0 ]} |}.
Proof. vm_compute. reflexivity. Qed.

(** ** The aggregation over JavaScript numbers: what balances *)

(** A whole-number sum over the buckets after one bucket was rewritten. *)
Lemma sum_buckets_insert {num : Type} (f : JSLoanTypeStats.t num -> Z)
    (m : gmap string (JSLoanTypeStats.t num)) k b :
  sum_buckets Z.add 0 f (<[k:=b]> m)
  = sum_buckets Z.add 0 f m
    - match m !! k with Some b0 => f b0 | None => 0 end + f b.
Proof.
  unfold sum_buckets.
  destruct (m !! k) as [b0|] eqn:Hk.
  - rewrite <- insert_delete_eq.
    rewrite (map_fold_delete_L _ _ k b0 m); [|intros; lia|assumption].
    rewrite map_fold_insert_L; [lia|intros; lia|apply lookup_delete_eq].
  - rewrite map_fold_insert_L; [lia|intros; lia|assumption].
Qed.

Section Numbers.

Variable num : Type.
Variable zero : num.
Variable add : num -> num -> num.
Variable sub : num -> num -> num.
Variable truthy : num -> bool.

Local Abbreviation reducer := (JSReport.reducer num zero add truthy).
Local Abbreviation initial := (JSReport.initial num zero).
Local Abbreviation bump := (js_bump zero add truthy).
Local Abbreviation empty_bucket := (JSReport.empty_bucket num zero).

(** The bucket statements rewrite the bucket of the entry's type and no
    other. *)
Lemma own_bucket_updates_insert (e : JSEntry.t num) m :
  JSReport.own_bucket_updates num zero add truthy e m
  = <[JSEntry.type e := bump e (default empty_bucket (m !! JSEntry.type e))]> m.
Proof.
  unfold JSReport.own_bucket_updates, js_bump.
  destruct (m !! JSEntry.type e) as [b|] eqn:Hb; simpl.
  - destruct (JSEntry.status e);
      rewrite <- (insert_id m _ _ Hb) at 1;
      rewrite !alter_insert_eq; reflexivity.
  - destruct (JSEntry.status e); rewrite !alter_insert_eq; reflexivity.
Qed.

Lemma js_reducer_loanTypes acc (e : JSEntry.t num) :
  JSReport.acc_loanTypes (reducer acc e)
  = if JSReport.inherited (JSEntry.type e) then JSReport.acc_loanTypes acc
    else <[JSEntry.type e :=
            bump e (default empty_bucket
                      (JSReport.acc_loanTypes acc !! JSEntry.type e))]>
           (JSReport.acc_loanTypes acc).
Proof.
  rewrite <- own_bucket_updates_insert.
  unfold JSReport.reducer; destruct (JSEntry.status e); reflexivity.
Qed.

Lemma js_reducer_counts acc (e : JSEntry.t num) :
  JSReport.acc_totalLoans (reducer acc e) = JSReport.acc_totalLoans acc + 1
  /\ JSReport.acc_activeLoans (reducer acc e)
     + JSReport.acc_settledLoans (reducer acc e)
     = JSReport.acc_activeLoans acc + JSReport.acc_settledLoans acc + 1.
Proof.
  unfold JSReport.reducer; destruct (JSEntry.status e); simpl; lia.
Qed.

Lemma js_reducer_amounts acc (e : JSEntry.t num) :
  JSReport.acc_totalInvested (reducer acc e)
  = add (JSReport.acc_totalInvested acc) (JSEntry.given_amount e)
  /\ JSReport.acc_totalEarned (reducer acc e)
     = match JSEntry.status e with
       | active => JSReport.acc_totalEarned acc
       | settled =>
           add (JSReport.acc_totalEarned acc)
             (JSReport.or_zero num zero truthy (JSEntry.settled_amount e))
       end.
Proof.
  unfold JSReport.reducer; destruct (JSEntry.status e); simpl; auto.
Qed.

Lemma js_bump_total (e : JSEntry.t num) b :
  JSLoanTypeStats.total (bump e b) = JSLoanTypeStats.total b + 1.
Proof. unfold js_bump; destruct (JSEntry.status e); reflexivity. Qed.

(** Every loan is counted once, as active or as settled. *)
Lemma js_fold_counts (data : list (JSEntry.t num)) acc :
  JSReport.acc_totalLoans acc
  = JSReport.acc_activeLoans acc + JSReport.acc_settledLoans acc ->
  JSReport.acc_totalLoans (fold_left reducer data acc)
  = JSReport.acc_activeLoans (fold_left reducer data acc)
    + JSReport.acc_settledLoans (fold_left reducer data acc).
Proof.
  revert acc; induction data as [|e data IH]; simpl; intros acc H;
    [assumption|].
  apply IH. destruct (js_reducer_counts acc e). lia.
Qed.

(** Every loan of a type that has a bucket of its own is counted in it. *)
Lemma js_fold_bucket_totals (data : list (JSEntry.t num)) acc :
  Forall own_type data ->
  JSReport.acc_totalLoans acc
  = sum_buckets Z.add 0 JSLoanTypeStats.total (JSReport.acc_loanTypes acc) ->
  JSReport.acc_totalLoans (fold_left reducer data acc)
  = sum_buckets Z.add 0 JSLoanTypeStats.total
      (JSReport.acc_loanTypes (fold_left reducer data acc)).
Proof.
  revert acc; induction data as [|e data IH]; simpl; intros acc Hown H;
    [assumption|].
  inversion Hown as [|? ? He Hrest]; subst.
  apply IH; [assumption|].
  rewrite js_reducer_loanTypes, He, sum_buckets_insert, js_bump_total.
  destruct (js_reducer_counts acc e) as [-> _].
  destruct (JSReport.acc_loanTypes acc !! JSEntry.type e); simpl; lia.
Qed.

End Numbers.

(** *** Amounts that are whole numbers

    [of_Z] reads a whole number as a number of the program; up to
    [bound] the program's addition of two such numbers is the whole
    number of their sum. *)

Section Whole.

Variable num : Type.
Variable zero : num.
Variable add : num -> num -> num.
Variable truthy : num -> bool.
Variable of_Z : Z -> num.
Variable bound : Z.
Hypothesis zero_whole : zero = of_Z 0.
Hypothesis add_whole :
  forall a b, 0 <= a -> 0 <= b -> a + b <= bound ->
    add (of_Z a) (of_Z b) = of_Z (a + b).

Local Abbreviation reducer := (JSReport.reducer num zero add truthy).
Local Abbreviation truthyZ := (fun a : Z => truthy (of_Z a)).
Local Abbreviation reducerZ := (JSReport.reducer Z 0 Z.add truthyZ).
Local Abbreviation bumpZ := (js_bump 0 Z.add truthyZ).
Local Abbreviation or_zeroZ := (JSReport.or_zero Z 0 truthyZ).

Lemma or_zero_whole (x : option Z) :
  JSReport.or_zero num zero truthy (option_map of_Z x) = of_Z (or_zeroZ x).
Proof.
  unfold JSReport.or_zero; destruct x as [v|]; simpl;
    [destruct (truthy (of_Z v))|]; auto.
Qed.

Lemma or_zero_bounds (e : JSEntry.t Z) :
  0 <= whole_settled e ->
  0 <= or_zeroZ (JSEntry.settled_amount e) <= whole_settled e.
Proof.
  unfold JSReport.or_zero, whole_settled.
  destruct (JSEntry.settled_amount e) as [v|];
    [destruct (truthy (of_Z v))|]; lia.
Qed.

Lemma whole_balanced_reducer acc (e : JSEntry.t Z) :
  whole_balanced acc -> own_type e ->
  0 <= JSEntry.given_amount e -> 0 <= whole_settled e ->
  whole_balanced (reducerZ acc e)
  /\ JSReport.acc_totalInvested (reducerZ acc e)
     = JSReport.acc_totalInvested acc + JSEntry.given_amount e
  /\ JSReport.acc_totalEarned (reducerZ acc e)
     <= JSReport.acc_totalEarned acc + whole_settled e.
Proof.
  intros (HI & HE & Hb & HsI & HsE) Hown Hg Hs.
  pose proof (or_zero_bounds e Hs) as Ho.
  destruct (js_reducer_amounts Z 0 Z.add truthyZ acc e) as [HI' HE'].
  pose proof (js_reducer_loanTypes Z 0 Z.add truthyZ acc e) as Hm.
  rewrite Hown in Hm.
  assert (HE2 : JSReport.acc_totalEarned acc
                <= JSReport.acc_totalEarned (reducerZ acc e)
                <= JSReport.acc_totalEarned acc + whole_settled e)
    by (rewrite HE'; destruct (JSEntry.status e); lia).
  split; [|split; [assumption|lia]].
  unfold whole_balanced.
  rewrite Hm, !sum_buckets_insert, HI'.
  split; [lia|]. split; [lia|]. split.
  - intros t b. rewrite lookup_insert. case_decide as Ht.
    + intros [= <-].
      destruct (JSReport.acc_loanTypes acc !! JSEntry.type e) as [b0|] eqn:Hb0;
        simpl; [destruct (Hb _ _ Hb0)|];
        unfold js_bump; rewrite HE'; destruct (JSEntry.status e); simpl; lia.
    + intros Hl. destruct (Hb _ _ Hl). lia.
  - rewrite HE'.
    destruct (JSReport.acc_loanTypes acc !! JSEntry.type e) as [b0|];
      unfold js_bump; destruct (JSEntry.status e); simpl; lia.
Qed.

(** One step on whole numbers read by [of_Z] is the step of the program
    on the numbers so read. *)
Lemma reducer_whole acc (e : JSEntry.t Z) :
  whole_balanced acc -> own_type e ->
  0 <= JSEntry.given_amount e -> 0 <= whole_settled e ->
  JSReport.acc_totalInvested acc + JSEntry.given_amount e <= bound ->
  JSReport.acc_totalEarned acc + whole_settled e <= bound ->
  reducer (lift_acc of_Z acc) (JSEntry.amounts of_Z e)
  = lift_acc of_Z (reducerZ acc e).
Proof.
  intros (HI & HE & Hb & _) Hown Hg Hs HbI HbE.
  pose proof (or_zero_bounds e Hs) as Ho.
  assert (Hbucket :
    JSReport.own_bucket_updates num zero add truthy (JSEntry.amounts of_Z e)
      (lift_bucket of_Z <$> JSReport.acc_loanTypes acc)
    = lift_bucket of_Z <$>
        JSReport.own_bucket_updates Z 0 Z.add truthyZ e
          (JSReport.acc_loanTypes acc)).
  { rewrite !own_bucket_updates_insert, fmap_insert, lookup_fmap. simpl.
    f_equal.
    destruct (JSReport.acc_loanTypes acc !! JSEntry.type e) as [b0|] eqn:Hb0;
      simpl.
    - destruct (Hb _ _ Hb0).
      unfold js_bump, lift_bucket; simpl.
      rewrite or_zero_whole.
      destruct (JSEntry.status e); simpl; rewrite ?add_whole by lia;
        reflexivity.
    - unfold js_bump, lift_bucket, JSReport.empty_bucket; simpl.
      rewrite or_zero_whole, zero_whole.
      destruct (JSEntry.status e); simpl; rewrite ?add_whole by lia;
        reflexivity. }
  unfold JSReport.reducer.
  unfold own_type in Hown. simpl JSEntry.type. rewrite Hown.
  unfold lift_acc at 1; simpl. rewrite Hbucket, or_zero_whole.
  destruct (JSEntry.status e); unfold lift_acc; simpl;
    rewrite ?add_whole by lia; reflexivity.
Qed.

Lemma total_of_nonneg {A : Type} (f : A -> Z) (l : list A) :
  Forall (fun e => 0 <= f e) l -> 0 <= total_of f l.
Proof. induction 1; simpl; lia. Qed.

Lemma total_of_cons {A : Type} (f : A -> Z) (e : A) (l : list A) :
  total_of f (e :: l) = f e + total_of f l.
Proof. reflexivity. Qed.

(** The run on whole numbers read by [of_Z] is the run of the program. *)
Lemma fold_whole (whole : list (JSEntry.t Z)) acc :
  whole_balanced acc ->
  Forall own_type whole ->
  Forall (fun e => 0 <= JSEntry.given_amount e) whole ->
  Forall (fun e => 0 <= whole_settled e) whole ->
  JSReport.acc_totalInvested acc + total_of JSEntry.given_amount whole
    <= bound ->
  JSReport.acc_totalEarned acc + total_of whole_settled whole <= bound ->
  fold_left reducer (map (JSEntry.amounts of_Z) whole) (lift_acc of_Z acc)
  = lift_acc of_Z (fold_left reducerZ whole acc)
  /\ whole_balanced (fold_left reducerZ whole acc)
  /\ JSReport.acc_totalInvested (fold_left reducerZ whole acc)
     = JSReport.acc_totalInvested acc + total_of JSEntry.given_amount whole
  /\ JSReport.acc_totalEarned (fold_left reducerZ whole acc) <= bound.
Proof.
  revert acc; induction whole as [|e whole IH];
    intros acc Hacc Hown Hg Hs HbI HbE.
  { simpl in *. split; [reflexivity|split; [assumption|split; lia]]. }
  rewrite total_of_cons in HbI, HbE |- *. cbn [map fold_left].
  apply Forall_cons_iff in Hown as [Hown1 Hown2].
  apply Forall_cons_iff in Hg as [Hg1 Hg2].
  apply Forall_cons_iff in Hs as [Hs1 Hs2].
  pose proof (total_of_nonneg _ _ Hg2).
  pose proof (total_of_nonneg _ _ Hs2).
  destruct (whole_balanced_reducer acc e Hacc Hown1 Hg1 Hs1)
    as (Hacc' & HI' & HE').
  rewrite reducer_whole by (assumption || lia).
  destruct (IH (reducerZ acc e)) as (Hrun & Hbal & HI2 & HE2);
    try assumption; try lia.
  split; [assumption|split; [assumption|split; lia]].
Qed.

(** A sum over buckets of whole numbers read by [of_Z]. *)
Lemma sum_buckets_whole (g : JSLoanTypeStats.t Z -> Z)
    (h : JSLoanTypeStats.t num -> num) (m : gmap string (JSLoanTypeStats.t Z)) :
  (forall b, h (lift_bucket of_Z b) = of_Z (g b)) ->
  (forall t b, m !! t = Some b -> 0 <= g b) ->
  sum_buckets Z.add 0 g m <= bound ->
  sum_buckets add zero h (lift_bucket of_Z <$> m)
  = of_Z (sum_buckets Z.add 0 g m).
Proof.
  intros Hh. unfold sum_buckets at 2. rewrite map_fold_fmap.
  cut ((forall t b, m !! t = Some b -> 0 <= g b) ->
       sum_buckets Z.add 0 g m <= bound ->
       map_fold (fun i => (fun b s => add (h b) s) ∘ lift_bucket of_Z) zero m
       = of_Z (sum_buckets Z.add 0 g m)
       /\ 0 <= sum_buckets Z.add 0 g m).
  { intros H H1 H2; apply H; assumption. }
  apply (map_fold_weak_ind
    (fun r m =>
       (forall t b, m !! t = Some b -> 0 <= g b) ->
       sum_buckets Z.add 0 g m <= bound ->
       r = of_Z (sum_buckets Z.add 0 g m) /\ 0 <= sum_buckets Z.add 0 g m)).
  - intros _ _. unfold sum_buckets; rewrite map_fold_empty.
    split; [exact zero_whole|lia].
  - intros i x m0 r Hi IH Hpos Hle.
    rewrite sum_buckets_insert, Hi in Hle |- *.
    assert (0 <= g x) by (apply (Hpos i); apply lookup_insert_eq).
    assert (Hpos0 : forall t b, m0 !! t = Some b -> 0 <= g b).
    { intros t b Ht. apply (Hpos t). rewrite lookup_insert_ne; [assumption|].
      intros ->. congruence. }
    destruct (decide (sum_buckets Z.add 0 g m0 <= bound)) as [Hle0|Hgt].
    + destruct (IH Hpos0 Hle0) as [-> Hsum].
      simpl. rewrite Hh, add_whole by lia. split; [f_equal; lia|lia].
    + exfalso.
      assert (0 <= sum_buckets Z.add 0 g m0); [|lia].
      clear -Hpos0. unfold sum_buckets.
      apply (map_fold_weak_ind
        (fun r m => (forall t b, m !! t = Some b -> 0 <= g b) -> 0 <= r));
        [lia| |assumption].
      intros j y m1 r Hj IH Hp.
      assert (0 <= g y) by (apply (Hp j); apply lookup_insert_eq).
      assert (0 <= r); [|lia].
      apply IH. intros t b Ht. apply (Hp t).
      rewrite lookup_insert_ne; [assumption|]. intros ->. congruence.
Qed.

End Whole.

(** C10. The statistics balance as far as the numbers of the program
    allow.  For every kind of number and every list of entries, every
    loan is counted as active or as settled, and when no entry has a type
    that is a member name of [Object.prototype] the loan count is the sum
    of the bucket counts.  When moreover the amounts are non-negative
    whole numbers whose sums stay within a bound up to which the
    program's addition of whole numbers is exact, the amount invested is
    the whole-number sum of the principals, and the amount invested and
    the amount earned are each the sum of the matching figure over the
    buckets. *)
Theorem calculateStats_balanced_when_exact
    (num : Type) (zero : num) (add sub : num -> num -> num)
    (truthy : num -> bool) :
  (forall data : list (JSEntry.t num),
     let stats := JSReport.calculateStats num zero add sub truthy data in
     JSReport.totalLoans stats
     = JSReport.activeLoans stats + JSReport.settledLoans stats
     /\ (Forall own_type data ->
         JSReport.totalLoans stats
         = sum_buckets Z.add 0 JSLoanTypeStats.total
             (JSReport.loanTypes stats)))
  /\ (forall (of_Z : Z -> num) (bound : Z) (whole : list (JSEntry.t Z)),
       zero = of_Z 0 ->
       (forall a b, 0 <= a -> 0 <= b -> a + b <= bound ->
          add (of_Z a) (of_Z b) = of_Z (a + b)) ->
       Forall own_type whole ->
       Forall (fun e => 0 <= JSEntry.given_amount e) whole ->
       Forall (fun e => 0 <= whole_settled e) whole ->
       total_of JSEntry.given_amount whole <= bound ->
       total_of whole_settled whole <= bound ->
       let stats :=
         JSReport.calculateStats num zero add sub truthy
           (map (JSEntry.amounts of_Z) whole) in
       JSReport.totalInvested stats
       = of_Z (total_of JSEntry.given_amount whole)
       /\ JSReport.totalInvested stats
          = sum_buckets add zero JSLoanTypeStats.invested
              (JSReport.loanTypes stats)
       /\ JSReport.totalEarned stats
          = sum_buckets add zero JSLoanTypeStats.earned
              (JSReport.loanTypes stats)).
Proof.
  split.
  - intros data stats. split.
    + apply (js_fold_counts num zero add truthy data). reflexivity.
    + intros Hown.
      apply (js_fold_bucket_totals num zero add truthy data); [assumption|].
      reflexivity.
  - intros of_Z bound whole Hzero Hadd Hown Hg Hs HbI HbE stats.
    assert (H0 : whole_balanced (JSReport.initial Z 0)).
    { unfold whole_balanced, sum_buckets; simpl.
      rewrite !map_fold_empty.
      split; [lia|split; [lia|split; [|split; reflexivity]]].
      intros t b Hl. rewrite lookup_empty in Hl. discriminate. }
    destruct (fold_whole num zero add truthy of_Z bound Hzero Hadd whole
                (JSReport.initial Z 0) H0 Hown Hg Hs)
      as (Hrun & (HI & HE & Hb & HsI & HsE) & Htot & HEb);
      [simpl; lia|simpl; lia|].
    change (JSReport.acc_totalInvested (JSReport.initial Z 0)) with 0 in Htot.
    assert (Hinit : JSReport.initial num zero
                    = lift_acc of_Z (JSReport.initial Z 0)).
    { unfold JSReport.initial, lift_acc; simpl.
      rewrite fmap_empty, <- Hzero. reflexivity. }
    subst stats. unfold JSReport.calculateStats; simpl.
    rewrite Hinit, Hrun. unfold lift_acc; simpl.
    rewrite (sum_buckets_whole num zero add of_Z bound Hzero Hadd
               JSLoanTypeStats.invested JSLoanTypeStats.invested);
      [|reflexivity|intros t b Hl; destruct (Hb t b Hl); lia|lia].
    rewrite (sum_buckets_whole num zero add of_Z bound Hzero Hadd
               JSLoanTypeStats.earned JSLoanTypeStats.earned);
      [|reflexivity|intros t b Hl; destruct (Hb t b Hl); lia|lia].
    rewrite <- HsI, <- HsE, Htot. simpl.
    split; [reflexivity|split; reflexivity].
Qed.

(** Two loans of 1 and 2, the second settled for 3, as binary64 numbers:
    binary64 addition is exact on the whole numbers up to 3. *)
Lemma calculateStats_balanced_when_exact_witness :
  let stats :=
    JSReport.calculateStats64
      (map (JSEntry.amounts JSReport.whole64) two_whole_loans) in
  JSReport.totalLoans stats
  = JSReport.activeLoans stats + JSReport.settledLoans stats
  /\ JSReport.totalLoans stats
     = sum_buckets Z.add 0 JSLoanTypeStats.total (JSReport.loanTypes stats)
  /\ JSReport.totalInvested stats = JSReport.whole64 3
  /\ JSReport.totalInvested stats
     = sum_buckets PrimFloat.add PrimFloat.zero JSLoanTypeStats.invested
         (JSReport.loanTypes stats)
  /\ JSReport.totalEarned stats
     = sum_buckets PrimFloat.add PrimFloat.zero JSLoanTypeStats.earned
         (JSReport.loanTypes stats).
Proof.
  destruct (calculateStats_balanced_when_exact PrimFloat.float PrimFloat.zero
              PrimFloat.add PrimFloat.sub JSReport.truthy64) as [Hc Ha].
  destruct (Hc (map (JSEntry.amounts JSReport.whole64) two_whole_loans))
    as [H1 H2].
  assert (Hzero : PrimFloat.zero = JSReport.whole64 0)
    by (vm_compute; reflexivity).
  assert (Hadd : forall a b, 0 <= a -> 0 <= b -> a + b <= 3 ->
            PrimFloat.add (JSReport.whole64 a) (JSReport.whole64 b)
            = JSReport.whole64 (a + b)).
  { intros a b Ha0 Hb0 Hab.
    assert (Ea : a = 0 \/ a = 1 \/ a = 2 \/ a = 3) by lia.
    assert (Eb : b = 0 \/ b = 1 \/ b = 2 \/ b = 3) by lia.
    destruct Ea as [-> | [-> | [-> | ->]]];
      destruct Eb as [-> | [-> | [-> | ->]]];
      vm_compute; reflexivity. }
  assert (Hown : Forall own_type two_whole_loans) by (repeat constructor).
  assert (Hg : Forall (fun e : JSEntry.t Z => 0 <= JSEntry.given_amount e)
                 two_whole_loans)
    by (repeat constructor; simpl; lia).
  assert (Hs : Forall (fun e => 0 <= whole_settled e) two_whole_loans)
    by (repeat constructor; unfold whole_settled; simpl; lia).
  assert (HbI : total_of JSEntry.given_amount two_whole_loans <= 3)
    by (vm_compute; discriminate).
  assert (HbE : total_of whole_settled two_whole_loans <= 3)
    by (vm_compute; discriminate).
  destruct (Ha JSReport.whole64 3 two_whole_loans Hzero Hadd Hown Hg Hs
              HbI HbE) as (H3 & H4 & H5).
  assert (Hown64 : Forall own_type
                     (map (JSEntry.amounts JSReport.whole64) two_whole_loans))
    by (repeat constructor).
  exact (conj H1 (conj (H2 Hown64) (conj H3 (conj H4 H5)))).
Defined.

Section Binary64.

Import PrimFloat.

(** C10, as stated, fails on binary64 numbers.  Three active loans of
    93.67, 2766.80 and 921.57 in two types: the amount invested is
    3782.0400000000004, the two buckets hold 2766.8 and 1015.24, and
    these add up to 3782.04 in either order.  One loan of type
    [constructor]: it is counted, and no bucket holds it. *)
Lemma calculateStats_balanced_counterexample :
  (let stats := JSReport.calculateStats64 three_loans64 in
   JSReport.totalInvested stats = 3782.0400000000004%float
   /\ JSReport.loanTypes stats
      = {[ "NR" := JSLoanTypeStats.mk 1 1 0 2766.8%float 0%float;
           "R" := JSLoanTypeStats.mk 2 2 0 1015.24%float 0%float ]}
   /\ add 2766.8%float 1015.24%float = 3782.04%float
   /\ add 1015.24%float 2766.8%float = 3782.04%float
   /\ eqb 3782.0400000000004%float 3782.04%float = false
   /\ JSReport.totalInvested stats
      <> sum_buckets add zero JSLoanTypeStats.invested
           (JSReport.loanTypes stats))
  /\ (let stats :=
        JSReport.calculateStats64 [loan64 1%float "constructor" 1000%float] in
      JSReport.totalLoans stats = 1
      /\ JSReport.loanTypes stats = ∅
      /\ JSReport.totalLoans stats
         <> sum_buckets Z.add 0 JSLoanTypeStats.total
              (JSReport.loanTypes stats)).
Proof.
  split.
  - repeat split; try (vm_compute; reflexivity).
    intros H.
    assert (E : eqb (JSReport.totalInvested
                       (JSReport.calculateStats64 three_loans64))
                  (sum_buckets add zero JSLoanTypeStats.invested
                     (JSReport.loanTypes
                        (JSReport.calculateStats64 three_loans64)))
                = true)
      by (rewrite <- H; vm_compute; reflexivity).
    vm_compute in E. discriminate.
  - repeat split; try (vm_compute; reflexivity).
    vm_compute. discriminate.
Qed.

(** Five loans with whole-number amounts: the binary64 statistics
    balance. *)
Example calculateStats64_five_loans :
  let stats := JSReport.calculateStats64 five_loans64 in
  JSReport.totalInvested stats = 8200%float
  /\ JSReport.totalEarned stats = 550%float
  /\ JSReport.profit stats = (-7650)%float
  /\ JSReport.totalInvested stats
     = sum_buckets add zero JSLoanTypeStats.invested (JSReport.loanTypes stats)
  /\ JSReport.totalEarned stats
     = sum_buckets add zero JSLoanTypeStats.earned (JSReport.loanTypes stats).
Proof. repeat split; vm_compute; reflexivity. Qed.

End Binary64.

(** ** Import validation *)

Section Validation.

Import Report.

Lemma typeof_string_true v :
  typeof_string v = true <-> exists s, v = Some (JString s).
Proof.
  split; [|intros [s ->]; reflexivity].
  destruct v as [[]|]; simpl; try discriminate; eauto.
Qed.

Lemma typeof_number_true v :
  typeof_number v = true <-> exists n, v = Some (JNumber n).
Proof.
  split; [|intros [n ->]; reflexivity].
  destruct v as [[]|]; simpl; try discriminate; eauto.
Qed.

Lemma eq_null_true v : eq_null v = true <-> v = Some JNull.
Proof.
  split; [|intros ->; reflexivity].
  destruct v as [[]|]; simpl; try discriminate; eauto.
Qed.

Lemma eq_undefined_true v : eq_undefined v = true <-> v = None.
Proof.
  split; [|intros ->; reflexivity].
  destruct v; simpl; try discriminate; eauto.
Qed.

Lemma includes_true l v :
  includes l v = true <-> exists s, v = Some (JString s) /\ In s l.
Proof.
  split.
  - destruct v as [[]|]; simpl; try discriminate.
    intros H; apply existsb_exists in H as (x & Hin & Heq).
    apply String.eqb_eq in Heq; subst; eauto.
  - intros (s & -> & Hin); simpl.
    apply existsb_exists; exists s; split; [assumption|apply String.eqb_refl].
Qed.

End Validation.

(** C7, as the code has it.  The validator accepts exactly the objects
    whose [type], [date], [customer_name], [customer_address] and [items]
    are strings, with [type] one of the three types; whose [given_amount]
    is a number; whose [status] is one of the two statuses; whose
    [customer_mobile] is present and is null or a string; whose
    [settled_amount] is missing or a number; whose [settled_date] is
    missing or a string; and whose [settlement_notes] is missing, null or
    a string.  So an element without [customer_mobile] is rejected, and
    so is one whose [settled_amount] or [settled_date] is null. *)
Theorem valid_item_accepts_exactly (item : json) :
  (Report.valid_item item = true <->
   (exists s, Report.prop item "type" = Some (JString s)
              /\ In s ["NR"; "R"; "Vyapari"])
   /\ (exists s, Report.prop item "date" = Some (JString s))
   /\ (exists s, Report.prop item "customer_name" = Some (JString s))
   /\ (exists s, Report.prop item "customer_address" = Some (JString s))
   /\ (Report.prop item "customer_mobile" = Some JNull
       \/ exists s, Report.prop item "customer_mobile" = Some (JString s))
   /\ (exists s, Report.prop item "items" = Some (JString s))
   /\ (exists n, Report.prop item "given_amount" = Some (JNumber n))
   /\ (exists s, Report.prop item "status" = Some (JString s)
                 /\ In s ["active"; "settled"])
   /\ (Report.prop item "settled_amount" = None
       \/ exists n, Report.prop item "settled_amount" = Some (JNumber n))
   /\ (Report.prop item "settled_date" = None
       \/ exists s, Report.prop item "settled_date" = Some (JString s))
   /\ (Report.prop item "settlement_notes" = None
       \/ Report.prop item "settlement_notes" = Some JNull
       \/ exists s, Report.prop item "settlement_notes" = Some (JString s)))
  /\ (Report.prop item "customer_mobile" = None -> Report.valid_item item = false)
  /\ (Report.prop item "settled_amount" = Some JNull
      \/ Report.prop item "settled_date" = Some JNull ->
      Report.valid_item item = false).
Proof.
  assert (Hiff : Report.valid_item item = true <->
   (exists s, Report.prop item "type" = Some (JString s)
              /\ In s ["NR"; "R"; "Vyapari"])
   /\ (exists s, Report.prop item "date" = Some (JString s))
   /\ (exists s, Report.prop item "customer_name" = Some (JString s))
   /\ (exists s, Report.prop item "customer_address" = Some (JString s))
   /\ (Report.prop item "customer_mobile" = Some JNull
       \/ exists s, Report.prop item "customer_mobile" = Some (JString s))
   /\ (exists s, Report.prop item "items" = Some (JString s))
   /\ (exists n, Report.prop item "given_amount" = Some (JNumber n))
   /\ (exists s, Report.prop item "status" = Some (JString s)
                 /\ In s ["active"; "settled"])
   /\ (Report.prop item "settled_amount" = None
       \/ exists n, Report.prop item "settled_amount" = Some (JNumber n))
   /\ (Report.prop item "settled_date" = None
       \/ exists s, Report.prop item "settled_date" = Some (JString s))
   /\ (Report.prop item "settlement_notes" = None
       \/ Report.prop item "settlement_notes" = Some JNull
       \/ exists s, Report.prop item "settlement_notes" = Some (JString s))).
  { destruct item as [|b|n|str|elems|fields];
      try (split; [discriminate|intros ((ty & H & _) & _); discriminate H]).
    unfold Report.valid_item.
    cbn [Report.typeof_object Report.is_null negb].
    rewrite !andb_true_iff, !orb_true_iff, !includes_true,
      !typeof_string_true, !typeof_number_true, !eq_null_true,
      !eq_undefined_true.
    split.
    - tauto.
    - intros ((ty & Hty & Hin) & H); repeat split; eauto; tauto. }
  split; [exact Hiff|]; split.
  - intros Hmissing.
    apply not_true_is_false; intros E.
    apply Hiff in E as (_ & _ & _ & _ & [H|[s H]] & _);
      rewrite Hmissing in H; discriminate.
  - intros Hnull.
    apply not_true_is_false; intros E.
    apply Hiff in E
      as (_ & _ & _ & _ & _ & _ & _ & _ & [Ha|[n Ha]] & [Hd|[s Hd]] & _);
      destruct Hnull as [H|H]; congruence.
Qed.

(** C7, as stated, fails, whether an absent field is a missing key or a
    null value: an element that has every required field and no
    [customer_mobile] key is rejected, and so is an element that has every
    required field, a null [customer_mobile] and a null [settled_amount];
    both meet the stated condition.  The same element with a null
    [customer_mobile] and no [settled_amount] key is accepted. *)
Lemma valid_item_as_specified_counterexample :
  (valid_item_as_specified item_without_mobile = true
   /\ Report.prop item_without_mobile "customer_mobile" = None
   /\ Report.valid_item item_without_mobile = false)
  /\ (valid_item_as_specified item_with_null_settled_amount = true
      /\ Report.prop item_with_null_settled_amount "settled_amount" = Some JNull
      /\ Report.valid_item item_with_null_settled_amount = false)
  /\ Report.valid_item good_item = true.
Proof. repeat split. Qed.

Lemma valid_item_accepts_exactly_witness :
  Report.valid_item item_without_mobile = false
  /\ Report.valid_item item_with_null_settled_amount = false.
Proof.
  split.
  - apply (proj1 (proj2 (valid_item_accepts_exactly item_without_mobile))).
    reflexivity.
  - apply (proj2 (proj2 (valid_item_accepts_exactly item_with_null_settled_amount))).
    left; reflexivity.
Defined.

(** ** Import *)

Lemma valid_item_closed_sets item :
  Report.valid_item item = true ->
  Report.includes ["NR"; "R"; "Vyapari"] (Report.prop item "type") = true
  /\ Report.includes ["active"; "settled"] (Report.prop item "status") = true.
Proof. unfold Report.valid_item; rewrite !andb_true_iff; tauto. Qed.

Lemma outside_closed_sets_invalid item :
  outside_closed_sets item -> Report.valid_item item = false.
Proof.
  intros Hout; apply not_true_is_false; intros Hvalid.
  apply valid_item_closed_sets in Hvalid as [Hty Hst].
  apply includes_true in Hty, Hst.
  destruct Hout as [H|H]; apply H; assumption.
Qed.

(** C6. Import is all or nothing.  When one element of the parsed array
    has a [type] outside the three types or a [status] outside the two
    statuses, nothing is sent to the table, whatever the other elements
    are: the table is left as it was and the invalid-format error is
    shown.  And in every case the table afterwards is either the table as
    it was, or, all elements having passed validation, the table followed
    by one row for each element of the array. *)
Theorem import_all_or_nothing
    (JSON_parse : string -> Report.Parsed)
    (decode : json -> option Store.InsertRow)
    (transport : option Store.PostgrestError) (seq : Z)
    (text : string) (data : list json) (tbl : list Entry) :
  JSON_parse text = Report.parsed (JArray data) ->
  let result := Report.importData JSON_parse decode transport seq (Some text) tbl in
  (forall it, In it data -> outside_closed_sets it ->
     result
     = (tbl,
        Report.failed "Invalid data format: Some entries are missing required fields or have invalid values"))
  /\ (fst result = tbl
      \/ (Report.validateImportData data = true
          /\ exists rows,
               mapM decode data = Some rows
               /\ length (Store.number seq rows) = length data
               /\ fst result = tbl ++ Store.number seq rows)).
Proof.
  intros Hparse result; subst result.
  unfold Report.importData; rewrite Hparse.
  split.
  - intros it Hin Hout.
    replace (Report.validateImportData data) with false; [reflexivity|].
    symmetry; apply not_true_is_false; intros Hall.
    unfold Report.validateImportData in Hall.
    rewrite forallb_forall in Hall.
    specialize (Hall it Hin).
    rewrite (outside_closed_sets_invalid it Hout) in Hall.
    discriminate.
  - destruct (Report.validateImportData data); [|left; reflexivity].
    cbn [negb]; unfold Store.insert_items.
    destruct transport; [left; reflexivity|].
    destruct (mapM decode data) as [rows|] eqn:Hrows; [|left; reflexivity].
    unfold Store.insert.
    destruct (forallb Store.row_check (Store.number seq rows));
      [|left; reflexivity].
    right; split; [reflexivity|].
    exists rows; repeat split.
    apply length_mapM in Hrows; rewrite Hrows.
    clear; revert seq; induction rows; simpl; intros; [|rewrite IHrows];
      reflexivity.
Qed.

Lemma import_all_or_nothing_witness :
  Report.importData (parses_to [good_item; item_of_unknown_type]) sample_decode
    None 7 (Some "loan-data.json") [loan1]
  = ([loan1],
     Report.failed "Invalid data format: Some entries are missing required fields or have invalid values").
Proof.
  apply (proj1 (import_all_or_nothing
                  (parses_to [good_item; item_of_unknown_type]) sample_decode
                  None 7 "loan-data.json" [good_item; item_of_unknown_type]
                  [loan1] eq_refl) item_of_unknown_type).
  - right; left; reflexivity.
  - left; intros (s & Hty & Hin).
    injection Hty as <-.
    destruct Hin as [H|[H|[H|[]]]]; discriminate H.
Defined.

(** A file of two valid elements adds two rows, numbered from the
    sequence. *)
Example import_scenario :
  Report.importData (parses_to [good_item; good_item]) sample_decode
    None 7 (Some "loan-data.json") [loan1]
  = ([loan1; loan 7 "NR" "2025-01-01" 1000; loan 8 "NR" "2025-01-01" 1000],
     [toast_success "Data imported successfully"; fetchEntries;
      reset_file_input]).
Proof. reflexivity. Qed.

(** * Further properties of the components *)

(** ** Dates *)

Lemma split_dash_free (s : string) :
  dash_free s = true -> split "-"%char s = [s].
Proof.
  induction s as [|c s IH]; simpl; [reflexivity|].
  intros H; apply andb_true_iff in H as [Hc Hs].
  apply negb_true_iff in Hc; rewrite Hc, (IH Hs); reflexivity.
Qed.

Lemma split_piece (a rest : string) :
  dash_free a = true ->
  split "-"%char (a ++ String "-"%char rest)%string = a :: split "-"%char rest.
Proof.
  induction a as [|c a IH]; simpl; [reflexivity|].
  intros H; apply andb_true_iff in H as [Hc Ha].
  apply negb_true_iff in Hc; rewrite Hc, (IH Ha); reflexivity.
Qed.

Lemma split_dashed (a b c : string) :
  dash_free a = true -> dash_free b = true -> dash_free c = true ->
  split "-"%char (dashed a b c) = [a; b; c].
Proof.
  intros Ha Hb Hc; unfold dashed.
  change ("-" ++ b ++ "-" ++ c)%string with (String "-"%char (b ++ String "-"%char c)).
  rewrite (split_piece a _ Ha), (split_piece b _ Hb), (split_dash_free c Hc).
  reflexivity.
Qed.

Lemma reverse_dashed (a b c : string) :
  dash_free a = true -> dash_free b = true -> dash_free c = true ->
  let parts := split "-"%char (dashed a b c) in
  (interpolate parts 2 ++ "-" ++ interpolate parts 1 ++ "-"
     ++ interpolate parts 0)%string
  = dashed c b a.
Proof. intros Ha Hb Hc; cbn zeta; rewrite split_dashed by assumption; reflexivity. Qed.

(** X1. The date picked in the entry form is the date stored: the form
    keeps the picked yyyy-MM-dd date as dd-MM-yyyy, shows it back to the
    date input unchanged, and hands it to the table unchanged. *)
Theorem picked_date_is_stored (y m d : string) (st : EntryForm.State) :
  dash_free y = true -> dash_free m = true -> dash_free d = true ->
  let st' := EntryForm.handleDateChange (dashed y m d) st in
  EntryForm.date (EntryForm.formData st') = dashed d m y
  /\ EntryForm.getInputDateValue st' = dashed y m d
  /\ Store.i_date (EntryForm.insert_payload (EntryForm.formData st'))
     = dashed y m d.
Proof.
  intros Hy Hm Hd st'.
  assert (Hkept : EntryForm.date (EntryForm.formData st') = dashed d m y).
  { subst st'; unfold EntryForm.handleDateChange; cbn [EntryForm.formData EntryForm.date].
    apply reverse_dashed; assumption. }
  split; [exact Hkept|].
  unfold EntryForm.getInputDateValue, EntryForm.insert_payload,
    EntryForm.formattedDate; cbn [Store.i_date].
  rewrite Hkept; split; apply reverse_dashed; assumption.
Qed.

Lemma picked_date_is_stored_witness :
  EntryForm.date (EntryForm.formData (EntryForm.handleDateChange "2025-03-05" form1))
  = "05-03-2025"
  /\ EntryForm.getInputDateValue (EntryForm.handleDateChange "2025-03-05" form1)
     = "2025-03-05".
Proof.
  pose proof (picked_date_is_stored "2025" "03" "05" form1
                eq_refl eq_refl eq_refl) as (H1 & H2 & _).
  split; [exact H1|exact H2].
Defined.

(** X2. The custom range of the report: a date picked as yyyy-MM-dd is
    kept as dd-MM-yyyy in the chosen field, the other field is left alone,
    and both the query and the date input get the picked date back. *)
Theorem custom_date_round_trip
    (y m d : string) (field : Report.Field) (prev : Report.DateRange) :
  dash_free y = true -> dash_free m = true -> dash_free d = true ->
  let range := Report.handleCustomDateChange field (dashed y m d) prev in
  let kept := match field with
              | Report.field_start => Report.start range
              | Report.field_end => Report.end_ range
              end in
  kept = dashed d m y
  /\ Report.convertDateFormat kept = dashed y m d
  /\ Report.getInputDateValue kept = dashed y m d
  /\ match field with
     | Report.field_start => Report.end_ range = Report.end_ prev
     | Report.field_end => Report.start range = Report.start prev
     end.
Proof.
  intros Hy Hm Hd range kept.
  assert (Hkept : kept = dashed d m y).
  { subst kept range; unfold Report.handleCustomDateChange.
    destruct field; cbn [Report.start Report.end_];
      apply reverse_dashed; assumption. }
  split; [exact Hkept|]; rewrite Hkept.
  split; [apply reverse_dashed; assumption|].
  split; [apply reverse_dashed; assumption|].
  subst range; destruct field; reflexivity.
Qed.

Lemma custom_date_round_trip_witness :
  Report.convertDateFormat
    (Report.start
       (Report.handleCustomDateChange Report.field_start "2025-01-31"
          (Report.mkRange "01-01-2025" "28-02-2025")))
  = "2025-01-31".
Proof.
  pose proof (custom_date_round_trip "2025" "01" "31" Report.field_start
                (Report.mkRange "01-01-2025" "28-02-2025")
                eq_refl eq_refl eq_refl) as (_ & H & _).
  exact H.
Defined.

(** X3. Malformed dates.  A text without separator comes out of the
    conversion with two pieces printed as [undefined]; pieces after the
    third are dropped.  The settled view's [formatDate] does the same,
    except that it leaves the empty text empty. *)
Theorem malformed_dates (s a b c rest : string) :
  dash_free s = true ->
  dash_free a = true -> dash_free b = true -> dash_free c = true ->
  Report.convertDateFormat s = ("undefined-undefined-" ++ s)%string
  /\ Report.convertDateFormat (a ++ "-" ++ b ++ "-" ++ c ++ "-" ++ rest)%string
     = dashed c b a
  /\ SettledEntriesView.formatDate "" = ""
  /\ (s <> "" ->
      SettledEntriesView.formatDate s = ("undefined-undefined-" ++ s)%string)
  /\ SettledEntriesView.formatDate (dashed a b c) = dashed c b a.
Proof.
  intros Hs Ha Hb Hc.
  split; [|split; [|split; [|split]]].
  - unfold Report.convertDateFormat; rewrite split_dash_free by assumption.
    reflexivity.
  - unfold Report.convertDateFormat.
    change (a ++ "-" ++ b ++ "-" ++ c ++ "-" ++ rest)%string
      with (a ++ String "-"%char (b ++ String "-"%char (c ++ String "-"%char rest)))%string.
    rewrite (split_piece a _ Ha), (split_piece b _ Hb), (split_piece c _ Hc).
    reflexivity.
  - reflexivity.
  - intros Hne; unfold SettledEntriesView.formatDate.
    destruct (String.eqb_spec s ""); [contradiction|].
    rewrite split_dash_free by assumption; reflexivity.
  - unfold SettledEntriesView.formatDate.
    destruct (String.eqb_spec (dashed a b c) "") as [E|_].
    + unfold dashed in E; destruct a; discriminate E.
    + apply reverse_dashed; assumption.
Qed.

Lemma malformed_dates_witness :
  Report.convertDateFormat "today" = "undefined-undefined-today"
  /\ SettledEntriesView.formatDate "2025-01-10" = "10-01-2025".
Proof.
  pose proof (malformed_dates "today" "2025" "01" "10" ""
                eq_refl eq_refl eq_refl eq_refl) as (H1 & _ & _ & _ & H5).
  split; [exact H1|exact H5].
Defined.

(** ** What the conditional writes leave alone *)

Lemma update_error_keeps transport p fs tbl e tbl' :
  Store.update transport p fs tbl = (Some e, tbl') -> tbl' = tbl.
Proof.
  unfold Store.update; destruct transport; [congruence|].
  destruct (forallb _ _); congruence.
Qed.

(** X4. Settling writes [status], [settled_amount], [settled_date] and
    [settlement_notes] only: whatever the outcome of the request, every
    row keeps its id, type, date, customer name, address and mobile,
    items, principal, renewal history, renewal date and renewal amount. *)
Theorem settle_keeps_other_columns
    (transport : option Store.PostgrestError)
    (st : TakenEntries.State) (tbl : list Entry) :
  Forall2 (fun r r' =>
      id r' = id r /\ type r' = type r /\ date r' = date r
      /\ customer_name r' = customer_name r
      /\ customer_address r' = customer_address r
      /\ customer_mobile r' = customer_mobile r
      /\ items r' = items r /\ given_amount r' = given_amount r
      /\ renewal_history r' = renewal_history r
      /\ renewal_date r' = renewal_date r
      /\ renewal_amount r' = renewal_amount r)
    tbl (snd (fst (TakenEntries.handleSettleSubmit transport st tbl))).
Proof.
  unfold TakenEntries.handleSettleSubmit.
  destruct (TakenEntries.selectedEntry st) as [sel|]; simpl.
  - pose proof (update_Forall2
      (fun r r' =>
         id r' = id r /\ type r' = type r /\ date r' = date r
         /\ customer_name r' = customer_name r
         /\ customer_address r' = customer_address r
         /\ customer_mobile r' = customer_mobile r
         /\ items r' = items r /\ given_amount r' = given_amount r
         /\ renewal_history r' = renewal_history r
         /\ renewal_date r' = renewal_date r
         /\ renewal_amount r' = renewal_amount r)
      transport
      (TakenEntries.settle_payload sel (TakenEntries.settlementData st))
      (TakenEntries.only_active sel) tbl) as H.
    destruct (Store.update _ _ _ tbl) as [[err|] tbl']; simpl in *;
      apply H; intros r; try tauto;
      unfold Store.write; destruct (Store.selects _ r); destruct r; simpl; tauto.
  - rewrite <- (map_id tbl) at 2; apply Forall2_written; tauto.
Qed.

(** X5. Renewing writes [renewal_history], [date], [renewal_date],
    [renewal_amount] and [given_amount] only: whatever the outcome of the
    request, every row keeps its id, type, customer name, address and
    mobile, items, status and settlement columns. *)
Theorem renew_keeps_other_columns
    (transport : option Store.PostgrestError)
    (st : TakenEntries.State) (tbl : list Entry) :
  Forall2 (fun r r' =>
      id r' = id r /\ type r' = type r
      /\ customer_name r' = customer_name r
      /\ customer_address r' = customer_address r
      /\ customer_mobile r' = customer_mobile r
      /\ items r' = items r /\ status r' = status r
      /\ settled_amount r' = settled_amount r
      /\ settled_date r' = settled_date r
      /\ settlement_notes r' = settlement_notes r)
    tbl (snd (fst (TakenEntries.handleRenewalSubmit transport st tbl))).
Proof.
  unfold TakenEntries.handleRenewalSubmit.
  destruct (TakenEntries.selectedEntry st) as [sel|]; simpl.
  - pose proof (update_Forall2
      (fun r r' =>
         id r' = id r /\ type r' = type r
         /\ customer_name r' = customer_name r
         /\ customer_address r' = customer_address r
         /\ customer_mobile r' = customer_mobile r
         /\ items r' = items r /\ status r' = status r
         /\ settled_amount r' = settled_amount r
         /\ settled_date r' = settled_date r
         /\ settlement_notes r' = settlement_notes r)
      transport
      (TakenEntries.renewal_payload sel (TakenEntries.renewalData st))
      (TakenEntries.only_active sel) tbl) as H.
    destruct (Store.update _ _ _ tbl) as [[err|] tbl']; simpl in *;
      apply H; intros r; try tauto;
      unfold Store.write; destruct (Store.selects _ r); destruct r; simpl; tauto.
  - rewrite <- (map_id tbl) at 2; apply Forall2_written; tauto.
Qed.

(** X6. A handler that reports a failure has changed nothing: when
    settling, renewing, revoking, deleting or saving ends with an error
    notification, the table and the component's state are what they were
    before. *)
Theorem failure_changes_nothing
    (transport : option Store.PostgrestError) (msg : string)
    (confirmed : bool) (id0 seq : Z) (today : string)
    (active_view : TakenEntries.State) (settled_view : SettledEntries.State)
    (form : EntryForm.State) (tbl : list Entry) :
  (In (toast_error msg) (snd (TakenEntries.handleSettleSubmit transport active_view tbl)) ->
   fst (TakenEntries.handleSettleSubmit transport active_view tbl) = (active_view, tbl))
  /\ (In (toast_error msg) (snd (TakenEntries.handleRenewalSubmit transport active_view tbl)) ->
      fst (TakenEntries.handleRenewalSubmit transport active_view tbl) = (active_view, tbl))
  /\ (In (toast_error msg) (snd (TakenEntries.handleDelete confirmed transport id0 active_view tbl)) ->
      fst (TakenEntries.handleDelete confirmed transport id0 active_view tbl) = (active_view, tbl))
  /\ (In (toast_error msg) (snd (SettledEntries.handleRevoke confirmed transport id0 settled_view tbl)) ->
      fst (SettledEntries.handleRevoke confirmed transport id0 settled_view tbl) = (settled_view, tbl))
  /\ (In (toast_error msg) (snd (EntryForm.handleSubmit transport seq today form tbl)) ->
      fst (EntryForm.handleSubmit transport seq today form tbl) = (form, tbl)).
Proof.
  repeat split.
  - unfold TakenEntries.handleSettleSubmit.
    destruct (TakenEntries.selectedEntry active_view) as [sel|]; [|intros []].
    destruct (Store.update _ _ _ tbl) as [[err|] tbl'] eqn:E; simpl.
    + intros _; apply update_error_keeps in E; subst; reflexivity.
    + intros [H|[]]; discriminate.
  - unfold TakenEntries.handleRenewalSubmit.
    destruct (TakenEntries.selectedEntry active_view) as [sel|]; [|intros []].
    destruct (Store.update _ _ _ tbl) as [[err|] tbl'] eqn:E; simpl.
    + intros _; apply update_error_keeps in E; subst; reflexivity.
    + intros [H|[H|[]]]; discriminate.
  - unfold TakenEntries.handleDelete, StoreDelete.delete.
    destruct confirmed; simpl; [|intros []].
    destruct transport; simpl; [reflexivity|].
    intros [H|[]]; discriminate.
  - unfold SettledEntries.handleRevoke.
    destruct confirmed; simpl; [|intros []].
    destruct (Store.update _ _ _ tbl) as [[err|] tbl'] eqn:E; simpl.
    + intros _; apply update_error_keeps in E; subst; reflexivity.
    + intros [H|[]]; discriminate.
  - unfold EntryForm.handleSubmit, Store.insert.
    destruct transport; simpl; [reflexivity|].
    destruct (Store.row_check _); simpl; [|reflexivity].
    intros [H|[]]; discriminate.
Qed.

(** ** Edge cases of the conditional writes *)

(** X7. A renewal with a negative new principal is refused by the table
    as soon as it would write a row: no row changes, the dialog stays
    open and the failure is reported. *)
Theorem renew_negative_principal_refused
    (st : TakenEntries.State) (tbl : list Entry) (sel r : Entry) :
  TakenEntries.selectedEntry st = Some sel ->
  In r tbl -> id r = id sel -> status r = active ->
  RenewalFormData.new_loan_amount (TakenEntries.renewalData st) < 0 ->
  TakenEntries.handleRenewalSubmit None st tbl
  = (st, tbl,
     [console_error "Error renewing loan:"; toast_error "Failed to renew loan"]).
Proof.
  intros Hsel Hin Hid Hact Hneg.
  unfold TakenEntries.handleRenewalSubmit, Store.update; rewrite Hsel.
  destruct (forallb _ _) eqn:Hall; [|reflexivity].
  exfalso.
  rewrite forallb_forall in Hall.
  assert (Hr : Store.selects (TakenEntries.only_active sel) r = true)
    by (apply selects_id_status; auto).
  specialize (Hall r (proj2 (filter_In _ _ _) (conj Hin Hr))).
  rewrite (write_selected _ _ _ Hr) in Hall.
  apply row_check_parts in Hall as (_ & Hg & _).
  unfold Store.given_amount_check in Hg; apply Z.leb_le in Hg.
  destruct r; simpl in Hg; lia.
Qed.

Lemma renew_negative_principal_refused_witness :
  TakenEntries.handleRenewalSubmit None
    (view [loan1] loan1 settle1 (RenewalFormData.mk 1100 "2025-02-01" (-5)))
    [loan1]
  = (view [loan1] loan1 settle1 (RenewalFormData.mk 1100 "2025-02-01" (-5)),
     [loan1],
     [console_error "Error renewing loan:"; toast_error "Failed to renew loan"]).
Proof.
  apply (renew_negative_principal_refused _ [loan1] loan1 loan1).
  - reflexivity.
  - left; reflexivity.
  - reflexivity.
  - reflexivity.
  - simpl; lia.
Defined.

(** X8. A renewal that finds no active row: when no row with the chosen
    entry's id is active at write time, the request changes no row and
    reports no error; the handler announces success, closes the dialog
    and asks for a refresh of the list. *)
Theorem renew_race_reports_success
    (st : TakenEntries.State) (tbl : list Entry) (sel : Entry) :
  TakenEntries.selectedEntry st = Some sel ->
  (forall r, In r tbl -> id r = id sel -> status r <> active) ->
  exists st',
    TakenEntries.handleRenewalSubmit None st tbl
    = (st', tbl, [toast_success "Loan renewed successfully"; fetchEntries])
    /\ TakenEntries.showRenewalModal st' = false
    /\ TakenEntries.entries st' = TakenEntries.entries st.
Proof.
  intros Hsel Hstale.
  unfold TakenEntries.handleRenewalSubmit; rewrite Hsel.
  rewrite update_no_row
    by (intros r Hr; apply not_active_not_selected; auto).
  eexists; repeat split.
Qed.

Lemma renew_race_reports_success_witness :
  exists st',
    TakenEntries.handleRenewalSubmit None view1 settled_elsewhere
    = (st', settled_elsewhere,
       [toast_success "Loan renewed successfully"; fetchEntries])
    /\ TakenEntries.showRenewalModal st' = false
    /\ TakenEntries.entries st' = [loan1].
Proof.
  apply (renew_race_reports_success view1 settled_elsewhere loan1).
  - reflexivity.
  - intros r [<-|[]] _; discriminate.
Defined.

Lemma not_settled_not_selected (id0 : Z) (r : Entry) :
  (id r = id0 -> status r <> settled) ->
  Store.selects (SettledEntries.only_settled id0) r = false.
Proof.
  intros H; destruct (Store.selects _ r) eqn:E; [|reflexivity].
  apply selects_id_status in E as [Hid Hst]; destruct (H Hid Hst).
Qed.

(** X9. Revoking twice.  A confirmed revoke that went through has made
    every settled row with that id active and left the other rows alone,
    so no row with that id is settled afterwards; a second revoke of the
    same id then changes no row and leaves the local list as it is, and
    still announces success. *)
Theorem revoke_twice (id0 : Z) (st : SettledEntries.State) (tbl : list Entry) :
  Store.table_ok tbl ->
  exists st1 tbl1 st2,
    SettledEntries.handleRevoke true None id0 st tbl
    = (st1, tbl1, [toast_success "Settlement revoked successfully"])
    /\ Forall2 (fun r r' =>
         if decide (id r = id0 /\ status r = settled)
         then status r' = active /\ settled_amount r' = None
              /\ settled_date r' = None /\ settlement_notes r' = None
         else r' = r) tbl tbl1
    /\ (forall r, In r tbl1 -> id r = id0 -> status r = active)
    /\ SettledEntries.entries st1
       = List.filter (fun entry => negb (SettledEntry.id entry =? id0))
           (SettledEntries.entries st)
    /\ SettledEntries.handleRevoke true None id0 st1 tbl1
       = (st2, tbl1, [toast_success "Settlement revoked successfully"])
    /\ SettledEntries.entries st2 = SettledEntries.entries st1.
Proof.
  intros Hok.
  assert (Hactive : forall r',
            In r' (map (Store.write SettledEntries.revoke_payload
                          (SettledEntries.only_settled id0)) tbl) ->
            id r' = id0 -> status r' = active).
  { intros r' Hr' Hid; apply in_map_iff in Hr' as (r & <- & Hr).
    unfold Store.write in *.
    destruct (Store.selects _ r) eqn:E.
    - destruct r; reflexivity.
    - destruct (status r) eqn:Hst; [reflexivity|].
      assert (Store.selects (SettledEntries.only_settled id0) r = true)
        by (apply selects_id_status; auto).
      congruence. }
  eexists _, _, _; split; [apply handleRevoke_done; assumption|].
  split; [|split; [exact Hactive|split; [reflexivity|]]].
  { apply Forall2_written; intros r _.
    case_decide as Hc.
    - rewrite write_selected by (apply selects_id_status; auto).
      destruct r; simpl; auto.
    - apply write_skipped.
      destruct (Store.selects _ r) eqn:E; [|reflexivity].
      apply selects_id_status in E; contradiction. }
  unfold SettledEntries.handleRevoke at 1; cbn [negb].
  rewrite update_no_row.
  - split; [reflexivity|].
    cbn [SettledEntries.entries].
    induction (SettledEntries.entries st) as [|x l IH]; simpl; [reflexivity|].
    destruct (SettledEntry.id x =? id0) eqn:E; simpl; [exact IH|].
    rewrite E; simpl; f_equal; exact IH.
  - intros r' Hr'; apply not_settled_not_selected; intros Hid.
    rewrite (Hactive r' Hr' Hid); discriminate.
Qed.

Lemma revoke_twice_witness :
  exists st1 tbl1 st2,
    SettledEntries.handleRevoke true None 1
      (SettledEntries.mkState [] "" "" false)
      [settled_loan 1 "NR" "2025-01-01" 1000 200 "2025-01-10"]
    = (st1, tbl1, [toast_success "Settlement revoked successfully"])
    /\ (forall r, In r tbl1 -> id r = 1 -> status r = active)
    /\ SettledEntries.handleRevoke true None 1 st1 tbl1
       = (st2, tbl1, [toast_success "Settlement revoked successfully"]).
Proof.
  destruct (revoke_twice 1 (SettledEntries.mkState [] "" "" false)
              [settled_loan 1 "NR" "2025-01-01" 1000 200 "2025-01-10"])
    as (st1 & tbl1 & st2 & H1 & _ & Hact & _ & H2 & _).
  - repeat constructor.
  - exists st1, tbl1, st2; repeat split; assumption.
Defined.

(** ** Settling and revoking, composed *)

Lemma active_row_has_no_settlement r :
  Store.row_check r = true -> status r = active ->
  settled_amount r = None /\ settled_date r = None.
Proof.
  intros Hok Hact; apply row_check_parts in Hok as (_ & _ & Hs & _).
  unfold Store.settlement_details_required in Hs; rewrite Hact in Hs.
  simpl in Hs; apply andb_true_iff in Hs as [Ha Hd].
  apply bool_decide_eq_true in Ha, Hd; auto.
Qed.

(** X10. Revoking undoes settling.  When the rows with the chosen entry's
    id are active and carry no settlement notes, settling and then
    revoking gives back the table as it was, row for row. *)
Theorem settle_then_revoke_restores
    (st : TakenEntries.State) (view' : SettledEntries.State)
    (tbl : list Entry) (sel : Entry) :
  TakenEntries.selectedEntry st = Some sel ->
  Store.table_ok tbl ->
  (forall r, In r tbl -> id r = id sel ->
             status r = active /\ settlement_notes r = None) ->
  exists st1 tbl1 st2,
    TakenEntries.handleSettleSubmit None st tbl
    = (st1, tbl1, [toast_success "Loan settled successfully"])
    /\ SettledEntries.handleRevoke true None (id sel) view' tbl1
       = (st2, tbl, [toast_success "Settlement revoked successfully"]).
Proof.
  intros Hsel Hok Hrows.
  eexists _, _, _; split; [apply handleSettleSubmit_done; eassumption|].
  rewrite handleRevoke_done.
  - f_equal; f_equal.
    rewrite map_map.
    transitivity (map (fun r : Entry => r) tbl); [|apply map_id].
    apply map_ext_in; intros r Hr.
    destruct (Store.selects (TakenEntries.only_active sel) r) eqn:E.
    + rewrite (write_selected _ _ _ E).
      apply selects_id_status in E as [Hid Hact].
      destruct (Hrows r Hr Hid) as [_ Hnotes].
      destruct (active_row_has_no_settlement r
                  (table_ok_In tbl r Hok Hr) Hact) as [Ha Hd].
      rewrite write_selected
        by (apply selects_id_status; destruct r; simpl in *; auto).
      destruct r; simpl in *; subst; reflexivity.
    + rewrite (write_skipped _ _ _ E).
      apply write_skipped, not_settled_not_selected; intros Hid Hst.
      destruct (Hrows r Hr Hid) as [Hact _]; congruence.
  - unfold Store.table_ok; apply Forall_forall; intros r' Hr'.
    apply list_elem_of_In, in_map_iff in Hr' as (r & <- & Hr).
    unfold Store.write; destruct (Store.selects _ r).
    + apply settle_payload_check, (table_ok_In tbl); assumption.
    + apply (table_ok_In tbl); assumption.
Qed.

Lemma settle_then_revoke_restores_witness :
  exists st1 tbl1 st2,
    TakenEntries.handleSettleSubmit None view1 [loan1; loan 2 "R" "2025-01-02" 300]
    = (st1, tbl1, [toast_success "Loan settled successfully"])
    /\ SettledEntries.handleRevoke true None 1
         (SettledEntries.mkState [] "" "" false) tbl1
       = (st2, [loan1; loan 2 "R" "2025-01-02" 300],
          [toast_success "Settlement revoked successfully"]).
Proof.
  apply (settle_then_revoke_restores view1
           (SettledEntries.mkState [] "" "" false)
           [loan1; loan 2 "R" "2025-01-02" 300] loan1).
  - reflexivity.
  - repeat constructor.
  - intros r [<-|[<-|[]]] Hid; [split; reflexivity|discriminate Hid].
Defined.

(** ** The dialogs *)

(** X12. What the settlement dialog displays is what is stored: for an
    active entry of the table chosen in the view, the [settled_amount] of
    the settled row is the extra amount the dialog computes for the
    entered total, by the same subtraction. *)
Theorem displayed_extra_is_stored
    (st : TakenEntries.State) (tbl : list Entry) (sel : Entry) :
  TakenEntries.selectedEntry st = Some sel ->
  In sel tbl -> status sel = active -> Store.table_ok tbl ->
  let total := SettlementFormData.total_amount (TakenEntries.settlementData st) in
  let shown := TakenEntries.calculateExtraAmount st total in
  exists st' tbl' r',
    TakenEntries.handleSettleSubmit None st tbl
    = (st', tbl', [toast_success "Loan settled successfully"])
    /\ In r' tbl' /\ id r' = id sel /\ status r' = settled
    /\ given_amount r' = given_amount sel
    /\ settled_amount r' = Some shown.
Proof.
  intros Hsel Hin Hact Hok total shown.
  eexists _, _, _; split; [apply handleSettleSubmit_done; eassumption|].
  split.
  { apply in_map_iff; exists sel; split; [reflexivity|assumption]. }
  rewrite write_selected by (apply selects_id_status; auto).
  subst shown total; unfold TakenEntries.calculateExtraAmount; rewrite Hsel.
  destruct sel; simpl; repeat split.
Qed.

Lemma displayed_extra_is_stored_witness :
  exists st' tbl' r',
    TakenEntries.handleSettleSubmit None view1 [loan1]
    = (st', tbl', [toast_success "Loan settled successfully"])
    /\ In r' tbl' /\ id r' = 1 /\ status r' = settled
    /\ given_amount r' = 1000
    /\ settled_amount r' = Some 200.
Proof.
  apply (displayed_extra_is_stored view1 [loan1] loan1).
  - reflexivity.
  - left; reflexivity.
  - reflexivity.
  - repeat constructor.
Defined.

(** X13. Settling without touching the dialog: the dialog opens with the
    total set to the principal, today's date and empty notes, so
    submitting it as it opens stores a settled row with [settled_amount]
    0, today's date and null notes. *)
Theorem settle_as_opened
    (today : string) (st : TakenEntries.State) (tbl : list Entry) (entry : Entry) :
  In entry tbl -> status entry = active -> Store.table_ok tbl ->
  exists st' tbl',
    TakenEntries.handleSettleSubmit None
      (TakenEntries.handleSettleClick today entry st) tbl
    = (st', tbl', [toast_success "Loan settled successfully"])
    /\ In {| id := id entry; type := type entry; date := date entry;
             customer_name := customer_name entry;
             customer_address := customer_address entry;
             customer_mobile := customer_mobile entry;
             items := items entry; given_amount := given_amount entry;
             status := settled;
             settled_amount := Some 0;
             settled_date := Some today;
             settlement_notes := None;
             renewal_history := renewal_history entry;
             renewal_date := renewal_date entry;
             renewal_amount := renewal_amount entry |} tbl'.
Proof.
  intros Hin Hact Hok.
  eexists _, _; split;
    [apply (handleSettleSubmit_done _ tbl entry); [reflexivity|assumption]|].
  apply in_map_iff; exists entry; split; [|assumption].
  rewrite write_selected by (apply selects_id_status; auto).
  destruct entry; simpl in *; subst; rewrite Z.sub_diag; reflexivity.
Qed.

Lemma settle_as_opened_witness :
  exists st' tbl',
    TakenEntries.handleSettleSubmit None
      (TakenEntries.handleSettleClick "2025-01-10" loan1 view1) [loan1]
    = (st', tbl', [toast_success "Loan settled successfully"])
    /\ In (settled_loan 1 "NR" "2025-01-01" 1000 0 "2025-01-10") tbl'.
Proof.
  apply (settle_as_opened "2025-01-10" view1 [loan1] loan1).
  - left; reflexivity.
  - reflexivity.
  - repeat constructor.
Defined.

(** X14. Renewing without touching the dialog: the dialog opens with the
    settlement amount and the new principal both set to the principal and
    today's date, so submitting it as it opens keeps the principal, moves
    the loan date to today and records one cycle whose amount, settled
    amount and new amount are all the principal. *)
Theorem renew_as_opened
    (today : string) (st : TakenEntries.State) (tbl : list Entry) (entry : Entry) :
  In entry tbl -> status entry = active -> Store.table_ok tbl ->
  exists st' tbl',
    TakenEntries.handleRenewalSubmit None
      (TakenEntries.handleRenewalClick today entry st) tbl
    = (st', tbl', [toast_success "Loan renewed successfully"; fetchEntries])
    /\ In {| id := id entry; type := type entry; date := today;
             customer_name := customer_name entry;
             customer_address := customer_address entry;
             customer_mobile := customer_mobile entry;
             items := items entry; given_amount := given_amount entry;
             status := active;
             settled_amount := settled_amount entry;
             settled_date := settled_date entry;
             settlement_notes := settlement_notes entry;
             renewal_history :=
               Some (match renewal_history entry with
                     | Some h => h
                     | None => []
                     end
                     ++ [mkRenewal (date entry) (given_amount entry)
                           (given_amount entry) today (given_amount entry)]);
             renewal_date := Some today;
             renewal_amount := Some (given_amount entry) |} tbl'.
Proof.
  intros Hin Hact Hok.
  assert (Hg : 0 <= given_amount entry).
  { pose proof (table_ok_In tbl entry Hok Hin) as H.
    apply row_check_parts in H as (_ & Hg & _).
    apply Z.leb_le, Hg. }
  eexists _, _; split;
    [apply (handleRenewalSubmit_done _ tbl entry);
       [reflexivity|assumption|exact Hg]|].
  apply in_map_iff; exists entry; split; [|assumption].
  rewrite write_selected by (apply selects_id_status; auto).
  destruct entry; simpl in *; subst; reflexivity.
Qed.

Lemma renew_as_opened_witness :
  exists st' tbl',
    TakenEntries.handleRenewalSubmit None
      (TakenEntries.handleRenewalClick "2025-02-01" loan1 view1) [loan1]
    = (st', tbl', [toast_success "Loan renewed successfully"; fetchEntries])
    /\ In {| id := 1; type := "NR"; date := "2025-02-01";
             customer_name := "Asha"; customer_address := "12 Market Road";
             customer_mobile := None; items := "gold ring";
             given_amount := 1000; status := active;
             settled_amount := None; settled_date := None;
             settlement_notes := None;
             renewal_history :=
               Some [mkRenewal "2025-01-01" 1000 1000 "2025-02-01" 1000];
             renewal_date := Some "2025-02-01";
             renewal_amount := Some 1000 |} tbl'.
Proof.
  apply (renew_as_opened "2025-02-01" view1 [loan1] loan1).
  - left; reflexivity.
  - reflexivity.
  - repeat constructor.
Defined.

(** ** Customer suggestions *)

Section Suggestions.

Import EntryForm.

Lemma keep_first_known acc c :
  In (CustomerSuggestion.customer_name c) (names acc) -> keep_first acc c = acc.
Proof.
  intros Hin; unfold keep_first.
  replace (existsb _ acc) with true; [reflexivity|].
  symmetry; apply existsb_exists.
  apply in_map_iff in Hin as (x & Hx & Hin).
  exists x; split; [assumption|]; apply String.eqb_eq, Hx.
Qed.

Lemma keep_first_new acc c :
  ~ In (CustomerSuggestion.customer_name c) (names acc) ->
  keep_first acc c = acc ++ [c].
Proof.
  intros Hnew; unfold keep_first.
  destruct (existsb _ acc) eqn:E; [|reflexivity].
  exfalso; apply Hnew.
  apply existsb_exists in E as (x & Hin & Hx).
  apply String.eqb_eq in Hx; rewrite <- Hx.
  apply in_map; assumption.
Qed.

Lemma find_none_app {A} (f : A -> bool) (l : list A) (x : A) :
  (forall y, In y l -> f y = false) -> f x = true -> find f (l ++ [x]) = Some x.
Proof.
  induction l as [|y l IH]; simpl; intros Hl Hx; [rewrite Hx; reflexivity|].
  rewrite (Hl y (or_introl eq_refl)); apply IH; auto.
Qed.

Lemma find_some_app {A} (f : A -> bool) (l l' : list A) (x : A) :
  find f l = Some x -> find f (l ++ l') = Some x.
Proof.
  induction l as [|y l IH]; simpl; [discriminate|].
  destruct (f y); auto.
Qed.

Lemma uniqueCustomers_snoc data c :
  uniqueCustomers (data ++ [c]) = keep_first (uniqueCustomers data) c.
Proof. unfold uniqueCustomers; rewrite fold_left_app; reflexivity. Qed.

Lemma uniqueCustomers_spec data :
  List.NoDup (names (uniqueCustomers data))
  /\ (forall n, In n (names (uniqueCustomers data)) <-> In n (names data))
  /\ (forall s, In s (uniqueCustomers data) ->
        find (fun x => String.eqb (CustomerSuggestion.customer_name x)
                         (CustomerSuggestion.customer_name s)) data
        = Some s)
  /\ (length (uniqueCustomers data) <= length data)%nat.
Proof.
  induction data as [|c data (Hnd & Hnames & Hfirst & Hlen)] using rev_ind.
  - simpl; repeat split; try tauto; [constructor|lia].
  - rewrite uniqueCustomers_snoc.
    destruct (in_dec String.string_dec (CustomerSuggestion.customer_name c)
                (names (uniqueCustomers data))) as [Hin|Hnew].
    + rewrite (keep_first_known _ _ Hin).
      split; [assumption|]; split; [|split].
      * intros n; unfold names; rewrite map_app, in_app_iff; fold (names data).
        rewrite Hnames; simpl; split; [tauto|].
        intros [H|[<-|[]]]; [assumption|apply Hnames, Hin].
      * intros s Hs; apply find_some_app, Hfirst, Hs.
      * rewrite length_app; simpl; lia.
    + rewrite (keep_first_new _ _ Hnew).
      split; [|split; [|split]].
      * unfold names; rewrite map_app; simpl.
        apply List.NoDup_app; [assumption|repeat constructor; simpl; tauto|].
        intros n Hn [<-|[]]; exact (Hnew Hn).
      * intros n; unfold names; rewrite !map_app, !in_app_iff.
        fold (names (uniqueCustomers data)); fold (names data).
        rewrite Hnames; reflexivity.
      * intros s Hs; apply in_app_iff in Hs as [Hs|[<-|[]]].
        -- apply find_some_app, Hfirst, Hs.
        -- apply find_none_app; [|apply String.eqb_refl].
           intros y Hy; apply String.eqb_neq; intros Heq.
           apply Hnew, Hnames; rewrite <- Heq; apply in_map, Hy.
      * rewrite !length_app; simpl; lia.
Qed.

End Suggestions.

(** X15. The suggestions of a name search.  Whatever rows the query
    returns, the suggestions shown have pairwise distinct names, carry
    exactly the names of the rows returned, are never more than the rows
    returned, and each is the first row returned with its name.  A search
    term that is blank after trimming clears the suggestions without
    looking at the response. *)
Theorem search_suggestions_distinct
    (trim : string -> string)
    (response : Store.PostgrestError + list CustomerSuggestion.t)
    (data : list CustomerSuggestion.t) (term : string) (st : EntryForm.State) :
  (List.NoDup (names (EntryForm.uniqueCustomers data))
   /\ (forall n, In n (names (EntryForm.uniqueCustomers data))
                 <-> In n (names data))
   /\ (forall s, In s (EntryForm.uniqueCustomers data) ->
         find (fun x => String.eqb (CustomerSuggestion.customer_name x)
                          (CustomerSuggestion.customer_name s)) data
         = Some s)
   /\ (length (EntryForm.uniqueCustomers data) <= length data)%nat)
  /\ (trim term <> "" ->
      EntryForm.searchCustomers trim (inr data) term st
      = ({| EntryForm.formData := EntryForm.formData st;
            EntryForm.suggestions := EntryForm.uniqueCustomers data;
            EntryForm.showSuggestions := true |}, []))
  /\ (trim term = "" ->
      EntryForm.searchCustomers trim response term st
      = ({| EntryForm.formData := EntryForm.formData st;
            EntryForm.suggestions := [];
            EntryForm.showSuggestions := EntryForm.showSuggestions st |}, [])).
Proof.
  split; [apply uniqueCustomers_spec|].
  unfold EntryForm.searchCustomers; split; intros H.
  - destruct (String.eqb_spec (trim term) ""); [contradiction|reflexivity].
  - rewrite H; reflexivity.
Qed.

(** X16. Saving a picked suggestion: after a suggestion is picked, the
    entry saved carries the suggestion's name and address, and its mobile
    number, a missing or empty number being stored as null. *)
Theorem picked_suggestion_is_stored
    (suggestion : CustomerSuggestion.t) (seq : Z) (today : string)
    (st : EntryForm.State) (tbl : list Entry) :
  0 <= EntryForm.givenAmount (EntryForm.formData st) ->
  exists st' row,
    EntryForm.handleSubmit None seq today
      (EntryForm.handleSuggestionClick suggestion st) tbl
    = (st', tbl ++ [row], [toast_success "Entry saved successfully!"])
    /\ customer_name row = CustomerSuggestion.customer_name suggestion
    /\ customer_address row = CustomerSuggestion.customer_address suggestion
    /\ customer_mobile row
       = match CustomerSuggestion.customer_mobile suggestion with
         | Some m => if decide (m = "") then None else Some m
         | None => None
         end
    /\ status row = active.
Proof.
  intros Hamount.
  eexists _, (Store.stored seq (EntryForm.insert_payload
                (EntryForm.formData (EntryForm.handleSuggestionClick suggestion st)))).
  split; [|repeat split].
  - unfold EntryForm.handleSubmit, Store.insert.
    cbn [Store.number forallb].
    rewrite insert_payload_check by exact Hamount; reflexivity.
  - cbn [customer_mobile Store.stored Store.i_customer_mobile
         EntryForm.insert_payload EntryForm.handleSuggestionClick
         EntryForm.formData EntryForm.customerMobile].
    destruct (CustomerSuggestion.customer_mobile suggestion) as [m|];
      [apply or_null_spec|reflexivity].
Qed.

Lemma picked_suggestion_is_stored_witness :
  exists st' row,
    EntryForm.handleSubmit None 7 "06-03-2025"
      (EntryForm.handleSuggestionClick suggestion1 form1) [loan1]
    = (st', [loan1] ++ [row], [toast_success "Entry saved successfully!"])
    /\ customer_name row = "Meera"
    /\ customer_address row = "7 Temple Street"
    /\ customer_mobile row = None
    /\ status row = active.
Proof.
  apply (picked_suggestion_is_stored suggestion1 7 "06-03-2025" form1 [loan1]).
  simpl; lia.
Defined.

(** ** Import and export *)

Lemma lookup_field_other key k v fields1 fields2 :
  k <> key ->
  Report.lookup_field key (fields1 ++ (k, v) :: fields2)
  = Report.lookup_field key (fields1 ++ fields2).
Proof.
  intros Hne; induction fields1 as [|[k1 v1] fields1 IH]; simpl.
  - destruct (String.eqb_spec k key); [contradiction|reflexivity].
  - rewrite IH; reflexivity.
Qed.

(** X17. The validation does not look at other keys: adding to an
    element a key that is none of the eleven it reads, with any value and
    at any place, leaves the verdict as it was.  So [id], [created_at] and
    the renewal columns of an exported row are not validated. *)
Theorem validation_ignores_other_keys
    (k : string) (v : json) (fields1 fields2 : list (string * json)) :
  ~ In k validated_keys ->
  Report.valid_item (JObject (fields1 ++ (k, v) :: fields2))
  = Report.valid_item (JObject (fields1 ++ fields2)).
Proof.
  intros Hk; unfold Report.valid_item, Report.prop.
  rewrite !lookup_field_other;
    [reflexivity|intros ->; apply Hk; unfold validated_keys; simpl; tauto..].
Qed.

Lemma validation_ignores_other_keys_witness :
  Report.valid_item
    (item "NR" [("customer_mobile", JNull)] "active"
       [("renewal_amount", JString "not a number")])
  = true.
Proof.
  refine (eq_trans (validation_ignores_other_keys "renewal_amount"
             (JString "not a number")
             [ ("type", JString "NR"); ("date", JString "2025-01-01");
               ("customer_name", JString "Asha");
               ("customer_address", JString "12 Market Road");
               ("customer_mobile", JNull);
               ("items", JString "gold ring"); ("given_amount", JNumber 1000);
               ("status", JString "active") ] [] _) eq_refl).
  unfold validated_keys; simpl; intuition discriminate.
Defined.

Lemma type_check_includes (e : Entry) :
  Store.type_check e = true ->
  Report.includes ["NR"; "R"; "Vyapari"] (Some (JString (type e))) = true.
Proof. intros H; exact H. Qed.

Lemma exported_row_valid (created_at : string) (e : Entry) :
  Store.row_check e = true ->
  Report.valid_item (Report.exported_row created_at e)
  = Status_eqb (status e) settled.
Proof.
  intros Hok; apply row_check_parts in Hok as (Hty & _ & Hs & _).
  unfold Store.settlement_details_required in Hs.
  unfold Report.valid_item, Report.exported_row, Report.prop.
  cbn [Report.lookup_field String.eqb Ascii.eqb Bool.eqb
       Report.typeof_object Report.is_null negb Report.typeof_string
       Report.typeof_number].
  rewrite (type_check_includes e Hty).
  destruct e as [i ty d cn ca cm it ga st sa sd sn rh rd ra];
    cbn [status settled_amount settled_date settlement_notes customer_mobile] in *.
  destruct st, sa, sd, sn, cm; simpl in *; try reflexivity; try discriminate.
Qed.

(** X18. An export does not come back through the import validation
    unless every entry in it is settled: a fetched active row is exported
    with null [settled_amount] and [settled_date], which the validation
    rejects, so one active entry makes the whole exported file invalid;
    a file of settled rows passes. *)
Theorem export_passes_validation_iff_all_settled
    (created_at : Entry -> string) (entries : list Entry) :
  Store.table_ok entries ->
  (Report.validateImportData
     (map (fun e => Report.exported_row (created_at e) e) entries) = true
   <-> forall e, In e entries -> status e = settled).
Proof.
  intros Hok; unfold Report.validateImportData.
  rewrite forallb_forall; split.
  - intros H e He.
    specialize (H _ (in_map (fun e => Report.exported_row (created_at e) e) _ _ He)).
    rewrite exported_row_valid in H by (apply (table_ok_In entries); assumption).
    apply Status_eqb_eq, H.
  - intros H j Hj; apply in_map_iff in Hj as (e & <- & He).
    rewrite exported_row_valid by (apply (table_ok_In entries); assumption).
    apply Status_eqb_eq, H, He.
Qed.

Lemma export_passes_validation_iff_all_settled_witness :
  Report.validateImportData
    (map (fun e => Report.exported_row "2025-01-01T10:00:00+00:00" e) five_loans)
  <> true.
Proof.
  intros H.
  assert (Hok : Store.table_ok five_loans) by (repeat constructor).
  pose proof (proj1 (export_passes_validation_iff_all_settled
                       (fun _ => "2025-01-01T10:00:00+00:00") five_loans Hok)
                H (loan 1 "NR" "2025-01-01" 1000) (or_introl eq_refl)) as Hs.
  discriminate Hs.
Defined.

(** X19. The Settled Amount column of the sheet.  For a row of the table
    the cell holds a number exactly when the entry is settled with a
    settled amount other than 0; for an active entry, and for an entry
    settled at its principal, the cell is the empty text.  The sheet has
    one row per entry. *)
Theorem sheet_settled_amount_blank (entries : list Entry) (e : Entry) :
  Store.table_ok entries -> In e entries ->
  length (Report.exportToExcel entries) = length entries
  /\ In (Report.sheet_row e) (Report.exportToExcel entries)
  /\ ((status e = active \/ settled_amount e = Some 0) ->
      Report.col_Settled_Amount (Report.sheet_row e) = Report.cell_text "")
  /\ (forall v, status e = settled -> settled_amount e = Some v -> v <> 0 ->
      Report.col_Settled_Amount (Report.sheet_row e) = Report.cell_number v).
Proof.
  intros Hok He.
  split; [apply length_map|].
  split; [apply in_map, He|].
  unfold Report.sheet_row; cbn [Report.col_Settled_Amount].
  split.
  - intros [Hact|Hzero].
    + destruct (active_row_has_no_settlement e
                  (table_ok_In entries e Hok He) Hact) as [-> _]; reflexivity.
    + rewrite Hzero; reflexivity.
  - intros v _ -> Hv; destruct (Z.eqb_spec v 0); [contradiction|reflexivity].
Qed.

Lemma sheet_settled_amount_blank_witness :
  Report.col_Settled_Amount
    (Report.sheet_row (settled_loan 4 "NR" "2025-01-07" 4000 250 "2025-03-01"))
  = Report.cell_number 250
  /\ Report.col_Settled_Amount (Report.sheet_row (loan 1 "NR" "2025-01-01" 1000))
     = Report.cell_text "".
Proof.
  split.
  - apply (sheet_settled_amount_blank five_loans
             (settled_loan 4 "NR" "2025-01-07" 4000 250 "2025-03-01"));
      [repeat constructor|simpl; tauto|reflexivity|reflexivity|discriminate].
  - apply (sheet_settled_amount_blank five_loans (loan 1 "NR" "2025-01-01" 1000));
      [repeat constructor|simpl; tauto|left; reflexivity].
Defined.

(** ** More on the aggregation *)

Section AggregationOrder.

Import Report.

Lemma count_active_settled (l : list Entry) :
  count_of is_active l + count_of is_settled l = Z.of_nat (length l).
Proof.
  unfold count_of; induction l as [|x l IH]; simpl; [reflexivity|].
  unfold is_active, is_settled in *; destruct (status x); simpl;
    rewrite ?Nat2Z.inj_succ in *; lia.
Qed.

End AggregationOrder.

(** X21. Every bucket of the breakdown is balanced and inhabited: a
    bucket exists only for a type that occurs, it counts at least one
    loan, and its total is its active count plus its settled count. *)
Theorem bucket_balanced (data : list Entry) (t : string) (b : LoanTypeStats.t) :
  Report.loanTypes (Report.calculateStats data) !! t = Some b ->
  (exists e, In e data /\ type e = t)
  /\ 1 <= LoanTypeStats.total b
  /\ LoanTypeStats.total b = LoanTypeStats.active b + LoanTypeStats.settled b
  /\ 0 <= LoanTypeStats.active b /\ 0 <= LoanTypeStats.settled b.
Proof.
  intros Hb.
  destruct (fold_reducer_figures data) as (_ & _ & _ & _ & _ & Ht).
  unfold Report.calculateStats in Hb; cbn [Report.loanTypes] in Hb.
  rewrite Ht in Hb.
  destruct (List.filter (of_type t) data) as [|x l] eqn:E; [discriminate|].
  injection Hb as <-.
  assert (Hx : In x (List.filter (of_type t) data)) by (rewrite E; left; reflexivity).
  apply filter_In in Hx as [Hin Hty]; apply of_type_true in Hty.
  split; [eauto|].
  pose proof (count_active_settled (x :: l)) as Hc.
  unfold bucket_of; cbn [LoanTypeStats.total LoanTypeStats.active LoanTypeStats.settled].
  unfold count_of in *; simpl length in *; lia.
Qed.

Lemma bucket_balanced_witness :
  (exists e, In e five_loans /\ type e = "NR")
  /\ 1 <= 3 /\ 3 = 2 + 1 /\ 0 <= 2 /\ 0 <= 1.
Proof.
  apply (bucket_balanced five_loans "NR" (LoanTypeStats.mk 3 2 1 5500 250)).
  vm_compute; reflexivity.
Defined.

(** ** Refreshing the active view *)

Lemma wanted_spec (selectedDate : string) (r : Entry) :
  TakenEntriesFetch.wanted selectedDate r = true
  <-> status r = active /\ (selectedDate = "" \/ date r = selectedDate).
Proof.
  unfold TakenEntriesFetch.wanted.
  rewrite andb_true_iff, Status_eqb_eq.
  destruct (String.eqb_spec selectedDate "") as [->|Hne].
  - tauto.
  - rewrite String.eqb_eq; tauto.
Qed.

Lemma fetch_shows_active_rows_aux
    (order_by_date_desc : list Entry -> list Entry) :
  (forall l, Permutation (order_by_date_desc l) l) ->
  forall (st : TakenEntries.State) (tbl : list Entry) (r : Entry),
    In r (TakenEntries.entries
            (fst (TakenEntriesFetch.fetchEntries order_by_date_desc None st tbl)))
    <-> In r tbl /\ status r = active
        /\ (TakenEntries.selectedDate st = ""
            \/ date r = TakenEntries.selectedDate st).
Proof.
  intros Hperm st tbl r.
  cbn [fst TakenEntriesFetch.fetchEntries TakenEntries.entries].
  rewrite <- wanted_spec, <- filter_In.
  split; intros H.
  - apply (Permutation_in r (Hperm _)), H.
  - apply (Permutation_in r (Permutation_sym (Hperm _))), H.
Qed.

(** X22. A refresh that goes through shows exactly the active rows of the
    table, or, with a date selected, exactly the active rows of that
    date, each as often as the table holds it, and ends the loading
    state.  A refresh that fails keeps the list shown and also ends the
    loading state. *)
Theorem fetch_shows_active_rows
    (order_by_date_desc : list Entry -> list Entry)
    (st : TakenEntries.State) (tbl : list Entry) :
  (forall l, Permutation (order_by_date_desc l) l) ->
  let st' := fst (TakenEntriesFetch.fetchEntries order_by_date_desc None st tbl) in
  (forall r, In r (TakenEntries.entries st') <->
             In r tbl /\ status r = active
             /\ (TakenEntries.selectedDate st = ""
                 \/ date r = TakenEntries.selectedDate st))
  /\ Permutation (TakenEntries.entries st')
       (List.filter (TakenEntriesFetch.wanted (TakenEntries.selectedDate st)) tbl)
  /\ TakenEntries.loading st' = false
  /\ forall e,
       let failed :=
         fst (TakenEntriesFetch.fetchEntries order_by_date_desc (Some e) st tbl) in
       TakenEntries.entries failed = TakenEntries.entries st
       /\ TakenEntries.loading failed = false.
Proof.
  intros Hperm st'; subst st'; cbn [fst TakenEntriesFetch.fetchEntries TakenEntries.entries
    TakenEntries.loading].
  split; [|split; [apply Hperm|split; [reflexivity|intros e; split; reflexivity]]].
  intros r; apply (fetch_shows_active_rows_aux _ Hperm st tbl r).
Qed.

Lemma fetch_shows_active_rows_witness :
  Permutation
    (TakenEntries.entries
       (fst (TakenEntriesFetch.fetchEntries (@rev Entry) None view1 five_loans)))
    [loan 1 "NR" "2025-01-01" 1000; loan 3 "NR" "2025-01-05" 500;
     loan 5 "Vyapari" "2025-01-09" 700].
Proof.
  apply (fetch_shows_active_rows (@rev Entry) view1 five_loans).
  intros l; symmetry; apply Permutation_rev.
Defined.

(** X23. Renewing and refreshing.  After a renewal of an active entry of
    the table that goes through, the refreshed list shows the renewed row
    (new date, new principal) when no date is selected or the selected
    date is the renewal date; when another date is selected, the renewed
    row is not in the refreshed list. *)
Theorem renewed_entry_after_refresh
    (order_by_date_desc : list Entry -> list Entry)
    (st : TakenEntries.State) (tbl : list Entry) (sel : Entry) :
  (forall l, Permutation (order_by_date_desc l) l) ->
  TakenEntries.selectedEntry st = Some sel ->
  In sel tbl -> status sel = active -> Store.table_ok tbl ->
  0 <= RenewalFormData.new_loan_amount (TakenEntries.renewalData st) ->
  let d := TakenEntries.renewalData st in
  let renewed :=
    Store.apply_payload (TakenEntries.renewal_payload sel d) sel in
  exists st1 tbl1,
    TakenEntries.handleRenewalSubmit None st tbl
    = (st1, tbl1, [toast_success "Loan renewed successfully"; fetchEntries])
    /\ date renewed = RenewalFormData.renewal_date d
    /\ given_amount renewed = RenewalFormData.new_loan_amount d
    /\ let shown :=
         TakenEntries.entries
           (fst (TakenEntriesFetch.fetchEntries order_by_date_desc None st1 tbl1)) in
       (TakenEntries.selectedDate st = ""
        \/ TakenEntries.selectedDate st = RenewalFormData.renewal_date d ->
        In renewed shown)
       /\ (TakenEntries.selectedDate st <> "" ->
           TakenEntries.selectedDate st <> RenewalFormData.renewal_date d ->
           ~ In renewed shown).
Proof.
  intros Hperm Hsel Hin Hact Hok Hnew d renewed.
  eexists _, _; split; [apply handleRenewalSubmit_done; eassumption|].
  assert (Hdate : date renewed = RenewalFormData.renewal_date d)
    by (subst renewed; destruct sel; reflexivity).
  assert (Hst : status renewed = active)
    by (subst renewed; destruct sel; simpl in *; assumption).
  split; [exact Hdate|].
  split; [subst renewed; destruct sel; reflexivity|].
  cbn zeta.
  pose proof (fetch_shows_active_rows_aux order_by_date_desc Hperm) as Hshown.
  split.
  - intros Hfilter; apply Hshown; cbn [TakenEntries.selectedDate].
    split; [|split; [exact Hst|rewrite Hdate; destruct Hfilter; auto]].
    apply in_map_iff; exists sel; split; [|assumption].
    apply write_selected, selects_id_status; auto.
  - intros Hne1 Hne2 Hshow; apply Hshown in Hshow as (_ & _ & [H|H]);
      cbn [TakenEntries.selectedDate] in H; [contradiction|].
    rewrite Hdate in H; auto.
Qed.

Lemma renewed_entry_after_refresh_witness :
  exists st1 tbl1,
    TakenEntries.handleRenewalSubmit None view1 [loan1]
    = (st1, tbl1, [toast_success "Loan renewed successfully"; fetchEntries])
    /\ In (Store.apply_payload (TakenEntries.renewal_payload loan1 renew1) loan1)
         (TakenEntries.entries
            (fst (TakenEntriesFetch.fetchEntries (@rev Entry) None st1 tbl1))).
Proof.
  destruct (renewed_entry_after_refresh (@rev Entry) view1 [loan1] loan1)
    as (st1 & tbl1 & Hrun & _ & _ & Hshown & _).
  - intros l; symmetry; apply Permutation_rev.
  - reflexivity.
  - left; reflexivity.
  - reflexivity.
  - repeat constructor.
  - simpl; lia.
  - exists st1, tbl1; split; [exact Hrun|].
    apply Hshown; left; reflexivity.
Defined.

(** ** Deleting *)

Lemma delete_sees_no_row fs tbl :
  StoreDelete.delete None fs tbl = (None, tbl).
Proof.
  unfold StoreDelete.delete; f_equal.
  induction tbl as [|r tbl IH]; simpl; [reflexivity|].
  f_equal; exact IH.
Qed.

(** X11. A confirmed delete removes no row.  The table has no policy for
    DELETE, so the request matches no row and raises no error: the table
    is left as it was, whatever the status of the rows with that id.  The
    handler nevertheless announces success and drops the entries with
    that id from the local list; a refresh of the view shows the active
    rows with that id again.  A declined confirmation changes nothing. *)
Theorem delete_removes_no_row
    (order_by_date_desc : list Entry -> list Entry)
    (id0 : Z) (st : TakenEntries.State) (tbl : list Entry) :
  (forall l, Permutation (order_by_date_desc l) l) ->
  (exists st',
     TakenEntries.handleDelete true None id0 st tbl
     = (st', tbl, [toast_success "Entry deleted successfully"])
     /\ (forall e, In e (TakenEntries.entries st') <->
                   In e (TakenEntries.entries st) /\ id e <> id0)
     /\ TakenEntries.selectedDate st' = TakenEntries.selectedDate st
     /\ (forall r, In r tbl -> id r = id0 -> status r = active ->
           TakenEntries.selectedDate st = ""
           \/ date r = TakenEntries.selectedDate st ->
           In r (TakenEntries.entries
                   (fst (TakenEntriesFetch.fetchEntries order_by_date_desc
                           None st' tbl)))))
  /\ (forall transport,
        TakenEntries.handleDelete false transport id0 st tbl = (st, tbl, [])).
Proof.
  intros Hperm; split; [|reflexivity].
  unfold TakenEntries.handleDelete; cbn [negb].
  rewrite delete_sees_no_row.
  eexists; split; [reflexivity|]; split; [|split; [reflexivity|]].
  - intros e; cbn [TakenEntries.entries]; rewrite filter_In, negb_true_iff.
    rewrite Z.eqb_neq; reflexivity.
  - intros r Hr _ Hact Hdate.
    apply (fetch_shows_active_rows_aux _ Hperm); auto.
Qed.

Lemma delete_removes_no_row_witness :
  exists st',
    TakenEntries.handleDelete true None 1 view1 [loan1]
    = (st', [loan1], [toast_success "Entry deleted successfully"])
    /\ ~ In loan1 (TakenEntries.entries st')
    /\ In loan1
         (TakenEntries.entries
            (fst (TakenEntriesFetch.fetchEntries (@rev Entry) None st' [loan1]))).
Proof.
  destruct (delete_removes_no_row (@rev Entry) 1 view1 [loan1])
    as [(st' & Hrun & Hlist & _ & Hback) _].
  - intros l; symmetry; apply Permutation_rev.
  - exists st'; split; [exact Hrun|]; split.
    + intros Hin; apply Hlist in Hin as [_ Hne]; apply Hne; reflexivity.
    + apply Hback; [left; reflexivity|reflexivity|reflexivity|left; reflexivity].
Defined.

(** ** Searching the lists *)

Lemma prefix_refl (s : string) : String.prefix s s = true.
Proof.
  induction s as [|c s IH]; simpl; [reflexivity|].
  destruct (Ascii.ascii_dec c c); [exact IH|contradiction].
Qed.

Lemma String_includes_empty (s : string) : String_includes s "" = true.
Proof. destruct s; reflexivity. Qed.

Lemma String_includes_refl (s : string) : String_includes s s = true.
Proof.
  destruct s as [|c s]; [reflexivity|].
  cbn [String_includes]; rewrite prefix_refl; reflexivity.
Qed.

(** X24. Searching.  In the active and in the settled view alike, the
    list shown is a selection of the entries held, in their order; an
    empty search term shows every entry; and a term that equals an
    entry's full name or type up to letter case shows that entry. *)
Theorem search_shows_matches
    (toLowerCase : string -> string) (toString : Z -> string)
    (active_view : TakenEntries.State) (settled_view : SettledEntries.State) :
  let shown := TakenEntries.filteredEntries toLowerCase toString active_view in
  let shown' := SettledEntriesView.filteredEntries toLowerCase toString settled_view in
  sublist shown (TakenEntries.entries active_view)
  /\ sublist shown' (SettledEntries.entries settled_view)
  /\ (TakenEntries.searchTerm active_view = "" ->
      shown = TakenEntries.entries active_view)
  /\ (SettledEntries.searchTerm settled_view = "" ->
      shown' = SettledEntries.entries settled_view)
  /\ (forall e, In e (TakenEntries.entries active_view) ->
        toLowerCase (TakenEntries.searchTerm active_view)
          = toLowerCase (customer_name e)
        \/ toLowerCase (TakenEntries.searchTerm active_view)
           = toLowerCase (type e) ->
        In e shown)
  /\ (forall e, In e (SettledEntries.entries settled_view) ->
        toLowerCase (SettledEntries.searchTerm settled_view)
          = toLowerCase (SettledEntry.customer_name e)
        \/ toLowerCase (SettledEntries.searchTerm settled_view)
           = toLowerCase (SettledEntry.type e) ->
        In e shown').
Proof.
  cbn zeta; unfold TakenEntries.filteredEntries, SettledEntriesView.filteredEntries.
  assert (Hsub : forall A (p : A -> bool) (l : list A), sublist (List.filter p l) l).
  { intros A p l; induction l as [|x l IH]; simpl; [constructor|].
    destruct (p x); [apply sublist_skip|apply sublist_cons]; exact IH. }
  assert (Hall : forall A (p : A -> bool) (l : list A),
             (forall x, p x = true) -> List.filter p l = l).
  { intros A p l Hp; induction l as [|x l IH]; simpl; [reflexivity|].
    rewrite Hp, IH; reflexivity. }
  repeat split; try apply Hsub.
  - intros ->; apply Hall; intros e.
    unfold TakenEntries.matches; rewrite String_includes_empty.
    apply orb_true_r.
  - intros ->; apply Hall; intros e.
    unfold SettledEntriesView.matches; rewrite !String_includes_empty.
    apply orb_true_r.
  - intros e He Hterm; apply filter_In; split; [assumption|].
    unfold TakenEntries.matches; destruct Hterm as [->| ->];
      rewrite String_includes_refl; rewrite ?orb_true_r; reflexivity.
  - intros e He Hterm; apply filter_In; split; [assumption|].
    unfold SettledEntriesView.matches; destruct Hterm as [->| ->];
      rewrite String_includes_refl; rewrite ?orb_true_r; reflexivity.
Qed.

(** ** The session guard *)

Section Guard.

Import App.

Lemma step_keeps_tab st ev :
  (exists item, activeTab st = nav_id item) ->
  exists item, activeTab (step st ev) = nav_id item.
Proof.
  intros Htab; destruct ev as [[e|u]|u|item|[e|]]; simpl; try assumption.
  - destruct (user st); [exists item; reflexivity|assumption].
  - exists nav_entry; reflexivity.
Qed.

Lemma fold_keeps_tab events st :
  (exists item, activeTab st = nav_id item) ->
  exists item, activeTab (fold_left step events st) = nav_id item.
Proof.
  revert st; induction events as [|ev events IH]; simpl; intros st H;
    [assumption|].
  apply IH, step_keeps_tab, H.
Qed.

Lemma step_keeps_loaded st ev : isLoading st = false -> isLoading (step st ev) = false.
Proof.
  intros H; destruct ev as [[e|u]|u|item|[e|]]; simpl; try assumption;
    try reflexivity.
  destruct (user st); assumption.
Qed.

Lemma fold_keeps_loaded events st :
  isLoading st = false -> isLoading (fold_left step events st) = false.
Proof.
  revert st; induction events as [|ev events IH]; simpl; intros st H;
    [assumption|].
  apply IH, step_keeps_loaded, H.
Qed.

Lemma fold_loaded events st outcome :
  In (session_checked outcome) events ->
  isLoading (fold_left step events st) = false.
Proof.
  revert st; induction events as [|ev events IH]; simpl; intros st Hin;
    [destruct Hin|destruct Hin as [->|Hin]].
  - apply fold_keeps_loaded; destruct outcome; reflexivity.
  - apply IH, Hin.
Qed.

Lemma known_tab_renders st item label :
  activeTab st = nav_id item -> renderContent st <> placeholder label.
Proof.
  intros Htab; unfold renderContent; rewrite Htab.
  destruct (isLoading st); [discriminate|].
  destruct (user st); [|discriminate].
  destruct item; simpl; discriminate.
Qed.

End Guard.

(** X25. The session guard.  Whatever happens to the component (session
    check, auth events, tab clicks, sign-outs, in any order): the active
    tab is always one of the four tabs, so the fallback text is never
    rendered; without a signed-in user the content is the spinner or the
    sign-in form, never a view of the entries; once the session check has
    returned the spinner is gone for good; and after a sign-out that went
    through, the next sign-in lands on the entry form whatever tab was
    open before. *)
Theorem session_guard (events : list App.Event) :
  let st := App.run events in
  (exists item, App.activeTab st = App.nav_id item)
  /\ (forall label, App.renderContent st <> App.placeholder label)
  /\ (App.user st = None ->
      App.renderContent st = App.spinner \/ App.renderContent st = App.AuthForm)
  /\ (forall outcome, In (App.session_checked outcome) events ->
      App.isLoading st = false)
  /\ (forall u,
        App.renderContent
          (App.step (App.step st (App.signed_out None))
             (App.auth_state_changed (Some u)))
        = if App.isLoading st then App.spinner else App.EntryForm).
Proof.
  intros st.
  assert (Htab : exists item, App.activeTab st = App.nav_id item).
  { apply fold_keeps_tab; exists App.nav_entry; reflexivity. }
  split; [exact Htab|].
  split; [intros label; destruct Htab as [item Htab];
          apply (known_tab_renders st item label Htab)|].
  split; [|split].
  - intros Hnone; unfold App.renderContent; rewrite Hnone.
    destruct (App.isLoading st); auto.
  - intros outcome Hin; apply (fold_loaded events App.initial outcome Hin).
  - intros u; unfold App.renderContent; simpl.
    destruct (App.isLoading st); reflexivity.
Qed.

(** ** Import and the constraints of the table *)

(** X27. The import validation does not look at the sign of the
    principal, the table does: a file that passes validation and holds an
    element read as a row with a negative principal is refused as a
    whole; no row is added and a failure is reported. *)
Theorem import_negative_principal_refused
    (JSON_parse : string -> Report.Parsed)
    (decode : json -> option Store.InsertRow) (seq : Z)
    (text : string) (data : list json) (rows : list Store.InsertRow)
    (p : Store.InsertRow) (tbl : list Entry) :
  JSON_parse text = Report.parsed (JArray data) ->
  Report.validateImportData data = true ->
  mapM decode data = Some rows ->
  In p rows -> Store.i_given_amount p < 0 ->
  exists m,
    Report.importData JSON_parse decode None seq (Some text) tbl
    = (tbl, Report.failed m).
Proof.
  intros Hparse Hvalid Hrows Hin Hneg.
  unfold Report.importData, Store.insert_items, Store.insert.
  rewrite Hparse, Hvalid, Hrows; cbn [negb].
  replace (forallb Store.row_check (Store.number seq rows)) with false;
    [eexists; reflexivity|].
  symmetry; apply not_true_is_false; intros Hall.
  rewrite forallb_forall in Hall.
  clear Hrows; revert seq Hall; induction rows as [|q rows IH]; intros seq Hall;
    [destruct Hin|].
  destruct Hin as [->|Hin].
  - specialize (Hall _ (or_introl eq_refl)).
    apply row_check_parts in Hall as (_ & Hg & _).
    unfold Store.given_amount_check in Hg; apply Z.leb_le in Hg.
    simpl in Hg; lia.
  - apply (IH Hin (seq + 1)); intros r Hr; apply Hall; right; exact Hr.
Qed.

Lemma import_negative_principal_refused_witness :
  Report.validateImportData [good_item; item_with_negative_amount] = true
  /\ exists m,
       Report.importData (parses_to [good_item; item_with_negative_amount])
         sample_decode None 7 (Some "loan-data.json") [loan1]
       = ([loan1], Report.failed m).
Proof.
  split; [reflexivity|].
  refine (import_negative_principal_refused
            (parses_to [good_item; item_with_negative_amount]) sample_decode 7
            "loan-data.json" [good_item; item_with_negative_amount] _ _ [loan1]
            eq_refl eq_refl eq_refl (or_intror (or_introl eq_refl)) _).
  simpl; lia.
Defined.
